(** * The Mantel test of [Mantel.py], embedded and verified

    [Mantel.py] holds one function, [Test(X, Y, perms, method)], written for
    Python 2 on top of numpy and scipy.  The embedding below follows it line
    by line.

    - Python exceptions are the type [exn]; a computation that may raise and
      that draws from numpy's process-wide random generator lives in the
      monad [Py.M], a state monad over the generator with errors.
    - A numpy [float] array is a list over a carrier [F] of class [Scalar];
      the class lists the scalar operations the program uses and assumes no
      law about them.  Its instances are IEEE doubles ([binary64], Rocq's
      primitive floats), the arithmetic the program runs in, and the real
      numbers ([reals]), the arithmetic its formulas are meant in.
    - [np.sum] adds the way numpy does: from left to right below eight
      numbers, with eight running sums up to 128 numbers, and by halves
      above.  In doubles the order of the additions shows in the last bits
      of a sum; a statement that a result equals a sum, a mean or a
      correlation coefficient as mathematics defines it is therefore made
      under [ExactSum], the laws of exact addition, which the reals satisfy
      and the doubles do not.
    - The numpy and scipy functions the program calls are no part of the
      repository.  The modules [np], [distance] and [stats] model them after
      their documented behaviour and the data model of the specification;
      the text of the exceptions they raise is indicative, and no theorem
      depends on it.
    - The mutable arrays of the Monte Carlo loop are the fields of the
      record [Mantel.locals], threaded through the loop body.
    - [Mantel.Test] starts where lines 41 and 42 have made arrays of the
      arguments: what [asarray] raises on an argument that is no rectangular
      array of numbers is outside the model.  So are the limits of the
      platform: arrays of any length can be allocated, and [xrange] takes
      any integer that is not negative. *)

From Stdlib Require Import ZArith String Floats Uint63 Reals Lra.
From stdpp Require Import base list sorting.

(** ** Python: exceptions, and the monad of computations *)

Inductive exn : Type :=
| ValueError (msg : string)
| IndexError (msg : string).

Module Py.
Section monad.
Context {G : Type}.

(** A computation over the generator state [G]: it ends with an exception or
    a value, and with the state the generator is left in. *)
Definition M (A : Type) : Type := G → (exn + A) * G.

Definition ret {A} (a : A) : M A := λ g, (inr a, g).

Definition raise {A} (e : exn) : M A := λ g, (inl e, g).

Definition bind {A B} (m : M A) (k : A → M B) : M B :=
  λ g, match m g with
       | (inl e, g') => (inl e, g')
       | (inr a, g') => k a g'
       end.

(** A step that needs no random number. *)
Definition lift {A} (r : exn + A) : M A := λ g, (r, g).

(** The same sequencing for steps that need no random number. *)
Definition and_then {A B} (r : exn + A) (k : A → exn + B) : exn + B :=
  match r with
  | inl e => inl e
  | inr a => k a
  end.

(** [for i in xs: st = body(i, st)]. *)
Fixpoint for_ {S} (xs : list nat) (body : nat → S → M S) (st : S) : M S :=
  match xs with
  | [] => ret st
  | i :: xs' => bind (body i st) (for_ xs' body)
  end.

End monad.
End Py.

Notation "'do' x <- m ;; k" := (Py.bind m (λ x, k))
  (at level 10, x name, m at level 99, k at level 200, only parsing).

Notation "'try' x <- r ;; k" := (Py.and_then r (λ x, k))
  (at level 10, x name, r at level 99, k at level 200, only parsing).

(** ** Scalars *)

(** The operations on array elements that the program, numpy and scipy use. *)
Class Scalar (F : Type) := {
  Fzero : F;
  Fhalf : F;                (* the literal .5 *)
  Fadd : F → F → F;
  Fsub : F → F → F;
  Fmul : F → F → F;
  Fdiv : F → F → F;
  Fsqrt : F → F;
  Fof_nat : nat → F;        (* an array length or a count, as a float *)
  Feqb : F → F → bool;      (* == *)
  Fltb : F → F → bool       (* < *)
}.

(** IEEE 754 binary64, the element type of [asarray(_, dtype=float)]. *)
#[export] Instance binary64 : Scalar float := {
  Fzero := 0%float;
  Fhalf := 0.5%float;
  Fadd := PrimFloat.add;
  Fsub := PrimFloat.sub;
  Fmul := PrimFloat.mul;
  Fdiv := PrimFloat.div;
  Fsqrt := PrimFloat.sqrt;
  Fof_nat := λ n, PrimFloat.of_uint63 (Uint63.of_Z (Z.of_nat n));
  Feqb := PrimFloat.eqb;
  Fltb := PrimFloat.ltb
}.

(** The real numbers: the arithmetic without rounding. *)
#[export] Instance reals : Scalar R := {
  Fzero := 0%R;
  Fhalf := (/ 2)%R;
  Fadd := Rplus;
  Fsub := Rminus;
  Fmul := Rmult;
  Fdiv := Rdiv;
  Fsqrt := sqrt;
  Fof_nat := INR;
  Feqb := λ x y, if Req_dec_T x y then true else false;
  Fltb := λ x y, if Rlt_dec x y then true else false
}.

(** The laws of exact addition: the order and the grouping of the additions
    do not matter to a sum. *)
Class ExactSum (F : Type) `{Scalar F} : Prop := {
  Fadd_assoc (x y z : F) : Fadd x (Fadd y z) = Fadd (Fadd x y) z;
  Fadd_comm (x y : F) : Fadd x y = Fadd y x;
  Fadd_0_l (x : F) : Fadd Fzero x = x
}.

(** ** numpy *)

(** [X] after [asarray(X, dtype=float)]: a one-dimensional array, or a
    two-dimensional one given by its rows. *)
Inductive ndarray (F : Type) : Type :=
| Arr1 (v : list F)
| Arr2 (rows : list (list F)).
Arguments Arr1 {F} v.
Arguments Arr2 {F} rows.

(** Modelled from the spec: the generator behind [numpy.random] is a library
    object, not in the repository.  [seed s] sets its state;
    [permutation n] returns a bijection over [0 .. n-1] as the list of its
    values, and advances the generator. *)
Class RandomState (G : Type) := {
  seed : Z → G;
  permutation : nat → G → list nat * G;
  permutation_perm n g : (permutation n g).1 ≡ₚ seq 0 n
}.

Module np.
Section np.
Context {F : Type} `{Scalar F} {G : Type} `{RandomState G}.

(** [random.seed(s)] *)
Definition random_seed (s : Z) : Py.M (G:=G) unit := λ _, (inr tt, seed s).

(** [random.permutation(n)] *)
Definition random_permutation (n : nat) : Py.M (G:=G) (list nat) :=
  λ g, (inr (permutation n g).1, (permutation n g).2).

(** [len(X.shape)] *)
Definition ndim (X : ndarray F) : nat :=
  match X with Arr1 _ => 1 | Arr2 _ => 2 end.

(** [X.shape[0]] *)
Definition shape0 (X : ndarray F) : nat :=
  match X with Arr1 v => length v | Arr2 rows => length rows end.

(** [zeros(n, dtype=float)] for a length that is not negative. *)
Definition zeros (n : nat) : list F := replicate n Fzero.

(** [zeros((n, m))] *)
Definition zeros2 (n m : nat) : list (list F) := replicate n (zeros m).

(** The additions of [sum] are those of numpy's pairwise summation, the
    inner loop of [add.reduce] over a contiguous array.

    Fewer than eight numbers are added from left to right, starting from
    zero. *)
Definition sum_few (a : list F) : F := foldl Fadd Fzero a.

(** Eight running sums [r] take in the next [k] blocks of eight numbers:
    [r[j] += a[i + j]]. *)
Fixpoint add_blocks (k : nat) (r rest : list F) : list F :=
  match k with
  | 0 => r
  | S k' => add_blocks k' (zip_with Fadd r (take 8 rest)) (drop 8 rest)
  end.

(** The eight running sums are added two by two. *)
Definition add_tree (r : list F) : F :=
  match r with
  | [r0; r1; r2; r3; r4; r5; r6; r7] =>
      Fadd (Fadd (Fadd r0 r1) (Fadd r2 r3)) (Fadd (Fadd r4 r5) (Fadd r6 r7))
  | _ => sum_few r
  end.

(** From 8 to 128 numbers: the running sums start as the first eight
    numbers and take in the whole blocks of eight that follow; the numbers
    left over, fewer than eight, are added to their sum one by one. *)
Definition sum_block (a : list F) : F :=
  let n := length a in
  let whole := n - n mod 8 in
  let r := add_blocks (whole / 8 - 1) (take 8 a) (drop 8 a) in
  foldl Fadd (add_tree r) (drop whole a).

(** More than 128 numbers are cut in two near the middle, at a multiple of
    eight, and the sums of the two parts are added.  [fuel] bounds the depth
    of the cuts; the length of the array is enough of it
    ([pairwise_sum_fuel]). *)
Fixpoint pairwise_sum (fuel : nat) (a : list F) : F :=
  let n := length a in
  if n <? 8 then sum_few a
  else if n <=? 128 then sum_block a
  else match fuel with
       | 0 => sum_block a
       | S fuel' =>
           let n2 := n / 2 - (n / 2) mod 8 in
           Fadd (pairwise_sum fuel' (take n2 a)) (pairwise_sum fuel' (drop n2 a))
       end.

(** [sum(a)]: the sum of no number is the zero that [add.reduce] starts
    from; to that zero the pairwise sum of a longer array is added. *)
Definition sum (a : list F) : F :=
  match a with
  | [] => Fzero
  | _ => Fadd Fzero (pairwise_sum (length a) a)
  end.

(** [a.mean()] *)
Definition mean (a : list F) : F := Fdiv (sum a) (Fof_nat (length a)).

(** [a - c] for a scalar [c] *)
Definition sub_scalar (a : list F) (c : F) : list F := (λ x, Fsub x c) <$> a.

(** [a * b] for two one-dimensional arrays: entry by entry when they have
    one length; an array of one entry is broadcast over the other array;
    any other pair of lengths is a ValueError. *)
Definition mul (a b : list F) : exn + list F :=
  if length a =? length b then inr (zip_with Fmul a b)
  else match a, b with
       | [x], _ => inr (Fmul x <$> b)
       | _, [y] => inr ((λ x, Fmul x y) <$> a)
       | _, _ => inl (ValueError "operands could not be broadcast together")
       end.

(** [a.std(ddof=ddof)]: the mean is taken off, each deviation is multiplied
    by itself, the squares are summed and divided by [len(a) - ddof];
    numpy's default is [ddof=0]. *)
Definition std (a : list F) (ddof : nat) : F :=
  let x := sub_scalar a (mean a) in
  Fsqrt (Fdiv (sum (zip_with Fmul x x)) (Fof_nat (length a - ddof))).

(** [M[i, j]] for indices in range. *)
Definition entry (M : list (list F)) (i j : nat) : F :=
  default Fzero (M !! i ≫= (.!! j)).

(** [M[order, :]]: the rows [order] of [M]; [None] is an IndexError. *)
Definition take_rows (M : list (list F)) (order : list nat)
  : option (list (list F)) :=
  mapM (λ i, M !! i) order.

(** [M[:, order]]: the columns [order] of [M]; [None] is an IndexError. *)
Definition take_cols (M : list (list F)) (order : list nat)
  : option (list (list F)) :=
  mapM (λ row : list F, mapM (λ j, row !! j) order) M.

(** [a[i] = x]; [None] is an IndexError. *)
Definition setitem (a : list F) (i : nat) (x : F) : option (list F) :=
  if decide (i < length a) then Some (<[i:=x]> a) else None.

End np.
End np.

(** ** scipy.spatial.distance *)

Module distance.
Section distance.
Context {F : Type} `{Scalar F}.

(** Modelled from the spec: scipy's [is_valid_dm] is a library function, not
    in the repository.  [is_valid_dm(D)] holds when [D] is two-dimensional,
    square, equal to its transpose and zero on its diagonal. *)
Definition is_valid_dm (D : ndarray F) : bool :=
  match D with
  | Arr1 _ => false
  | Arr2 rows =>
      let n := length rows in
      forallb (λ row : list F, length row =? n) rows
      && forallb (λ i, forallb (λ j, Feqb (np.entry rows i j) (np.entry rows j i))
                               (seq 0 n)) (seq 0 n)
      && forallb (λ i, Feqb (np.entry rows i i) Fzero) (seq 0 n)
  end.

(** Modelled from the spec: scipy's [is_valid_y] is a library function, not
    in the repository.  [is_valid_y(y)] holds when [y] is one-dimensional
    and its length is a binomial coefficient [d * (d - 1) / 2], which scipy
    tries for [d = ceil(sqrt(2 * len(y)))]. *)
Definition is_valid_y (y : ndarray F) : bool :=
  match y with
  | Arr1 v =>
      let n := length v in
      let d := Nat.sqrt_up (n * 2) in
      d * (d - 1) / 2 =? n
  | Arr2 _ => false
  end.

(** The place of [M[i, j]], [i < j < n], in the condensed vector: the rows
    before row [i] hold [n-1, n-2, ...] entries. *)
Definition condensed_index (n i j : nat) : nat :=
  sum_list ((λ t, n - 1 - t) <$> seq 0 i) + (j - i - 1).

(** The upper triangle of [M] without the diagonal, row by row and in each
    row by increasing column. *)
Definition upper_triangle (M : list (list F)) : list F :=
  let n := length M in
  i ← seq 0 (n - 1); (λ j, np.entry M i j) <$> seq (S i) (n - S i).

(** Modelled from the spec: scipy's [to_vector_from_squareform_wrap] is a
    library function, not in the repository.  It writes the upper triangle
    of [M] to the front of the array [v]. *)
Definition to_vector_from_squareform_wrap (M : list (list F)) (v : list F)
  : list F :=
  let c := upper_triangle M in c ++ drop (length c) v.

(** Modelled from the spec: scipy's [to_squareform_from_vector_wrap] is a
    library function, not in the repository.  It writes [v] to the upper
    and to the lower triangle of [M], and leaves the diagonal. *)
Definition to_squareform_from_vector_wrap (M : list (list F)) (v : list F)
  : list (list F) :=
  let n := length M in
  (λ i, (λ j, if decide (i < j) then default Fzero (v !! condensed_index n i j)
              else if decide (j < i) then default Fzero (v !! condensed_index n j i)
              else np.entry M i j) <$> seq 0 n) <$> seq 0 n.

(** Modelled from the spec: scipy's [squareform] is a library function, not
    in the repository.  [squareform(X, force, checks)] turns a condensed
    vector into its matrix, an empty one into the 1 by 1 zero matrix, and a
    square matrix into its condensed vector. *)
Definition squareform (X : ndarray F) (force : string) (checks : bool)
  : exn + ndarray F :=
  if String.eqb force "tomatrix" && negb (np.ndim X =? 1) then
    inl (ValueError "Forcing 'tomatrix' but input X is not a distance vector.")
  else if String.eqb force "tovector" && negb (np.ndim X =? 2) then
    inl (ValueError "Forcing 'tovector' but input X is not a distance matrix.")
  else
    match X with
    | Arr1 v =>
        if length v =? 0 then inr (Arr2 (np.zeros2 1 1))
        else
          let d := Nat.sqrt_up (length v * 2) in
          if negb (d * (d - 1) =? length v * 2) then
            inl (ValueError "Incompatible vector size. It must be a binomial coefficient n choose 2 for some integer n >= 2.")
          else inr (Arr2 (to_squareform_from_vector_wrap (np.zeros2 d d) v))
    | Arr2 rows =>
        let d := length rows in
        if negb (forallb (λ row : list F, length row =? d) rows) then
          inl (ValueError "The matrix argument must be square.")
        else if checks && negb (is_valid_dm X) then
          inl (ValueError "Distance matrix 'X' must be symmetric.")
        else if d <=? 1 then inr (Arr1 [])
        else inr (Arr1 (to_vector_from_squareform_wrap rows
                          (np.zeros (d * (d - 1) / 2))))
    end.

End distance.
End distance.

(** ** scipy.stats *)

Module stats.
Section stats.
Context {F : Type} `{Scalar F}.

(** How many elements of [a] are smaller than [x], and how many equal it. *)
Definition count_lt (a : list F) (x : F) : nat :=
  length (filter (λ y, Fltb y x = true) a).

Definition count_eq (a : list F) (x : F) : nat :=
  length (filter (λ y, Feqb y x = true) a).

(** Modelled from the spec: scipy's [rankdata] is a library function, not in
    the repository.  With its default method ['average'], an element with
    [less] smaller elements and [leq] elements that are not larger gets the
    rank [.5 * (leq + less + 1)]. *)
Definition rankdata (a : list F) : list F :=
  (λ x, let less := count_lt a x in
        let leq := less + count_eq a x in
        Fmul Fhalf (Fof_nat (leq + less + 1))) <$> a.

End stats.
End stats.

(** ** Mantel.py *)

Module Mantel.
Section Mantel.
Context {F : Type} `{Scalar F} {G : Type} `{RandomState G}.

(** The arrays and numbers that [Test] holds when the Monte Carlo loop
    starts.  The loop writes [Y_res_permuted] and [MC_corrs]. *)
Record locals : Type := Locals {
  X_res : list F;
  Y_res : list F;
  denominator : F;
  Y_res_as_matrix : list (list F);
  n : nat;
  Y_res_permuted : list F;
  MC_corrs : list F
}.

(** Lines 46 and 49: the test that guards [raise ValueError]. *)
Definition not_a_distance_matrix (X : ndarray F) : bool :=
  negb (distance.is_valid_dm X) && negb (distance.is_valid_y X).

(** Lines 54 to 58: a matrix is condensed to a vector. *)
Definition condense (X : ndarray F) : exn + ndarray F :=
  if np.ndim X =? 2 then distance.squareform X "tovector" false else inr X.

(** The elements of an array that is one-dimensional by now. *)
Definition elements (X : ndarray F) : list F :=
  match X with Arr1 v => v | Arr2 rows => concat rows end.

(** Lines 67 to 69. *)
Definition to_ranks (method : string) (X : list F) : list F :=
  if String.eqb method "spearman" then stats.rankdata X else X.

(** Lines 92 to 95: one pass of the Monte Carlo loop. *)
Definition trial (i : nat) (st : locals) : Py.M (G:=G) locals :=
  do order <- np.random_permutation (n st);;
  match np.take_rows (Y_res_as_matrix st) order ≫= (λ R, np.take_cols R order) with
  | None => Py.raise (IndexError "index out of bounds")
  | Some Y_res_as_matrix_permuted =>
      let Y_res_permuted' :=
        distance.to_vector_from_squareform_wrap
          Y_res_as_matrix_permuted (Y_res_permuted st) in
      do products <- Py.lift (np.mul (X_res st) Y_res_permuted');;
      let c := Fdiv (np.sum products) (denominator st) in
      match np.setitem (MC_corrs st) i c with
      | None => Py.raise (IndexError "index out of bounds")
      | Some MC_corrs' =>
          Py.ret {| X_res := X_res st; Y_res := Y_res st;
                    denominator := denominator st;
                    Y_res_as_matrix := Y_res_as_matrix st; n := n st;
                    Y_res_permuted := Y_res_permuted';
                    MC_corrs := MC_corrs' |}
      end
  end.

(** Lines 73 to 87: residuals, sums of squares, the matrix form of [Y_res]
    and the two empty arrays. *)
Definition prepare (X Y : list F) (perms : Z) : exn + locals :=
  let X_res := np.sub_scalar X (np.mean X) in
  let Y_res := np.sub_scalar Y (np.mean Y) in
  try X_squares <- np.mul X_res X_res;;
  let X_ss := np.sum X_squares in
  try Y_squares <- np.mul Y_res Y_res;;
  let Y_ss := np.sum Y_squares in
  let denominator := Fsqrt (Fmul X_ss Y_ss) in
  match distance.squareform (Arr1 Y_res) "tomatrix" false with
  | inl e => inl e
  | inr Y_res_as_matrix =>
      if (perms <? 0)%Z then inl (ValueError "negative dimensions are not allowed")
      else inr {| X_res := X_res; Y_res := Y_res; denominator := denominator;
                  Y_res_as_matrix :=
                    match Y_res_as_matrix with Arr2 rows => rows | Arr1 _ => [] end;
                  n := np.shape0 Y_res_as_matrix;
                  Y_res_permuted := np.zeros (length Y_res);
                  MC_corrs := np.zeros (Z.to_nat perms) |}
  end.

(** Lines 91 to 95. *)
Definition monte_carlo (perms : Z) (st : locals) : Py.M (G:=G) locals :=
  Py.for_ (seq 0 (Z.to_nat perms)) trial st.

(** Lines 99 to 104. *)
Definition report (st : locals) : exn + F * F * F * F :=
  try products <- np.mul (X_res st) (Y_res st);;
  let r := Fdiv (np.sum products) (denominator st) in
  let m := np.mean (MC_corrs st) in
  let sd := np.std (MC_corrs st) 0 in
  let z := Fdiv (Fsub r m) sd in
  inr (z, r, m, sd).

(** Lines 73 to 104: all that follows the rank transform. *)
Definition correlate (X Y : list F) (perms : Z) : Py.M (G:=G) (F * F * F * F) :=
  do st <- Py.lift (prepare X Y perms);;
  do st <- monte_carlo perms st;;
  Py.lift (report st).

(** [Test(X, Y, perms, method)], for [X] and [Y] as [asarray] returns
    them. *)
Definition Test (X Y : ndarray F) (perms : Z) (method : string)
  : Py.M (G:=G) (F * F * F * F) :=
  if not_a_distance_matrix X then
    Py.raise (ValueError "X is not a valid distance matrix")
  else if not_a_distance_matrix Y then
    Py.raise (ValueError "Y is not a valid distance matrix")
  else
    do X <- Py.lift (condense X);;
    do Y <- Py.lift (condense Y);;
    if negb (np.shape0 X =? np.shape0 Y) then
      Py.raise (ValueError "X and Y are not of equal size")
    else
      let X := to_ranks method (elements X) in
      let Y := to_ranks method (elements Y) in
      correlate X Y perms.

End Mantel.
Arguments locals F : clear implicits.
End Mantel.

(** A generator for running the program on examples: the [k]-th draw rotates
    [0 .. n-1] by [k] places. *)
#[export] Program Instance rotor : RandomState nat := {
  seed := Z.to_nat;
  permutation := λ n k, (rotate k (seq 0 n), S k)
}.
Next Obligation.
  intros n k. simpl. unfold rotate.
  rewrite Permutation_app_comm, take_drop. done.
Qed.

(** ** Notions the statements below are written in *)

(** The number of pairs among [n] objects. *)
Definition pairs (n : nat) : nat := n * (n - 1) / 2.

Section notions.
Context {F : Type} `{Scalar F} {G : Type} `{RandomState G}.

(** A symmetric [n] by [n] matrix with a zero diagonal. *)
Definition is_distance_matrix (X : ndarray F) : Prop :=
  match X with
  | Arr1 _ => False
  | Arr2 rows =>
      let n := length rows in
      Forall (λ row, length row = n) rows
      ∧ (∀ i j, i < n → j < n → Feqb (np.entry rows i j) (np.entry rows j i) = true)
      ∧ (∀ i, i < n → Feqb (np.entry rows i i) Fzero = true)
  end.

(** A vector that holds one distance for each pair of some number of
    objects. *)
Definition is_condensed_vector (X : ndarray F) : Prop :=
  match X with
  | Arr1 v => ∃ n, length v = pairs n
  | Arr2 _ => False
  end.

(** An input that [Test] takes for a distance matrix, in either form. *)
Definition valid_input (X : ndarray F) : Prop :=
  is_distance_matrix X ∨ is_condensed_vector X.

(** The condensed vector an input stands for. *)
Definition condensed_form (X : ndarray F) : list F :=
  match X with
  | Arr1 v => v
  | Arr2 rows => distance.upper_triangle rows
  end.

(** The number of objects a condensed vector describes, as line 82 finds
    it: the size of its matrix form. *)
Definition objects (v : list F) : nat :=
  if length v =? 0 then 1 else Nat.sqrt_up (length v * 2).

(** The matrix form of a condensed vector. *)
Definition matrix_form (v : list F) : list (list F) :=
  if length v =? 0 then np.zeros2 1 1
  else let d := Nat.sqrt_up (length v * 2) in
       distance.to_squareform_from_vector_wrap (np.zeros2 d d) v.

(** [M[order, :][:, order]], entry by entry. *)
Definition permute (M : list (list F)) (order : list nat) : list (list F) :=
  (λ i, (λ j, np.entry M i j) <$> order) <$> order.

(** The orders that [k] successive calls of [permutation n] return, and
    the generator they leave. *)
Fixpoint draws (n k : nat) (g : G) : list (list nat) :=
  match k with
  | 0 => []
  | S k' => (permutation n g).1 :: draws n k' (permutation n g).2
  end.

Fixpoint after_draws (n k : nat) (g : G) : G :=
  match k with
  | 0 => g
  | S k' => after_draws n k' (permutation n g).2
  end.

(** The correlation of [X_res] with the copy of [Y_res] permuted by [order]
    and condensed again. *)
Definition sample (st : Mantel.locals F) (order : list nat) : F :=
  Fdiv (np.sum (zip_with Fmul (Mantel.X_res st)
                  (distance.upper_triangle (permute (Mantel.Y_res_as_matrix st) order))))
       (Mantel.denominator st).

(** What one pass of the loop, with index [i] and the drawn [order], leaves
    of [st]. *)
Definition after_trial (st : Mantel.locals F) (i : nat) (order : list nat)
  : Mantel.locals F :=
  {| Mantel.X_res := Mantel.X_res st;
     Mantel.Y_res := Mantel.Y_res st;
     Mantel.denominator := Mantel.denominator st;
     Mantel.Y_res_as_matrix := Mantel.Y_res_as_matrix st;
     Mantel.n := Mantel.n st;
     Mantel.Y_res_permuted :=
       distance.upper_triangle (permute (Mantel.Y_res_as_matrix st) order);
     Mantel.MC_corrs := <[i:=sample st order]> (Mantel.MC_corrs st) |}.

(** The shapes the loop relies on: the matrix is [n] by [n] and the buffer
    holds one entry for each pair. *)
Definition loop_ready (st : Mantel.locals F) : Prop :=
  length (Mantel.Y_res_as_matrix st) = Mantel.n st
  ∧ Forall (λ row, length row = Mantel.n st) (Mantel.Y_res_as_matrix st)
  ∧ length (Mantel.Y_res_permuted st) = pairs (Mantel.n st).

(** The residuals of a vector. *)
Definition residuals (x : list F) : list F := np.sub_scalar x (np.mean x).

(** The state in which the loop starts for the vectors [X] and [Y]. *)
Definition initial (X Y : list F) (perms : Z) : Mantel.locals F :=
  {| Mantel.X_res := residuals X;
     Mantel.Y_res := residuals Y;
     Mantel.denominator :=
       Fsqrt (Fmul (np.sum (zip_with Fmul (residuals X) (residuals X)))
                   (np.sum (zip_with Fmul (residuals Y) (residuals Y))));
     Mantel.Y_res_as_matrix := matrix_form (residuals Y);
     Mantel.n := length (matrix_form (residuals Y));
     Mantel.Y_res_permuted := np.zeros (length (residuals Y));
     Mantel.MC_corrs := np.zeros (Z.to_nat perms) |}.

(** What lines 99 to 104 return from a state whose [X_res] and [Y_res] have
    one length. *)
Definition statistics (st : Mantel.locals F) : F * F * F * F :=
  let r := Fdiv (np.sum (zip_with Fmul (Mantel.X_res st) (Mantel.Y_res st)))
                (Mantel.denominator st) in
  let m := np.mean (Mantel.MC_corrs st) in
  let sd := np.std (Mantel.MC_corrs st) 0 in
  (Fdiv (Fsub r m) sd, r, m, sd).

(** The correlation of lines 73 to 77 and 99 for two vectors: the formula
    of Pearson's coefficient, with each sum added the way [np.sum] adds. *)
Definition pearson (x y : list F) : F :=
  let mx := Fdiv (np.sum x) (Fof_nat (length x)) in
  let my := Fdiv (np.sum y) (Fof_nat (length y)) in
  let dx := (λ a, Fsub a mx) <$> x in
  let dy := (λ b, Fsub b my) <$> y in
  Fdiv (np.sum (zip_with Fmul dx dy))
       (Fsqrt (Fmul (np.sum (zip_with Fmul dx dx)) (np.sum (zip_with Fmul dy dy)))).

(** *** The statistics as mathematics defines them

    The definitions from here to [permuted_correlation] use no function of
    [np]: their sum is [total]. *)

(** The sum of the numbers of a list. *)
Definition total (l : list F) : F := foldr Fadd Fzero l.

(** The arithmetic mean of a sample, and its population standard deviation:
    the squared deviations are divided by the size of the sample. *)
Definition arithmetic_mean (c : list F) : F :=
  Fdiv (total c) (Fof_nat (length c)).

Definition population_sd (c : list F) : F :=
  let m := arithmetic_mean c in
  Fsqrt (Fdiv (total ((λ x, Fmul (Fsub x m) (Fsub x m)) <$> c))
              (Fof_nat (length c))).

(** The deviations of the numbers of [x] from their mean. *)
Definition deviations (x : list F) : list F :=
  (λ a, Fsub a (arithmetic_mean x)) <$> x.

(** The sum of the products of the numbers of [x] and [y], place by
    place. *)
Definition sum_of_products (x y : list F) : F := total (zip_with Fmul x y).

(** The correlation of two vectors of deviations: the sum of their products
    over the square root of the product of their sums of squares. *)
Definition correlation (dx dy : list F) : F :=
  Fdiv (sum_of_products dx dy)
       (Fsqrt (Fmul (sum_of_products dx dx) (sum_of_products dy dy))).

(** Pearson's correlation coefficient of two vectors. *)
Definition pearson_coefficient (x y : list F) : F :=
  correlation (deviations x) (deviations y).

(** The distance that the condensed vector [v] of [n] objects holds for the
    objects [a] and [b]: that of the pair in which the smaller one comes
    first, and zero from an object to itself. *)
Definition distance_between (v : list F) (n a b : nat) : F :=
  if decide (a < b) then default Fzero (v !! distance.condensed_index n a b)
  else if decide (b < a) then default Fzero (v !! distance.condensed_index n b a)
  else Fzero.

(** The condensed vector [v] after the objects are relabelled: the entry
    for the pair [(i, j)] is the distance that [v] holds for the objects
    [order[i]] and [order[j]]. *)
Definition relabelled (v : list F) (order : list nat) : list F :=
  let n := length order in
  i ← seq 0 (n - 1);
  (λ j, distance_between v n (order !!! i) (order !!! j)) <$> seq (S i) (n - S i).

(** The coefficient that one pass of the loop computes for the vectors [x]
    and [y] and the drawn [order]: the deviations of [y] are relabelled,
    the denominator is that of the two vectors as they came. *)
Definition permuted_correlation (x y : list F) (order : list nat) : F :=
  Fdiv (sum_of_products (deviations x) (relabelled (deviations y) order))
       (Fsqrt (Fmul (sum_of_products (deviations x) (deviations x))
                    (sum_of_products (deviations y) (deviations y)))).

(** The ranks, counted from 1, that the elements of [a] equal to [x] take
    when [a] is put in order: they follow the smaller elements. *)
Definition tied_ranks (a : list F) (x : F) : list nat :=
  seq (stats.count_lt a x + 1) (stats.count_eq a x).

(** On the elements of [l], [<] is a strict order, [==] holds of the
    elements that [<] does not tell apart, and [==] is transitive: the
    comparisons of floats that are no NaN. *)
Definition orderly (l : list F) : bool :=
  forallb (λ u, forallb (λ v, forallb (λ w,
    negb (Fltb u u)
    && implb (Fltb u v && Fltb v w) (Fltb u w)
    && Bool.eqb (Feqb u v) (negb (Fltb u v) && negb (Fltb v u))
    && implb (Feqb u v && Feqb v w) (Feqb u w)) l) l) l.

(** [s] is in ascending order: no element is smaller than one before it. *)
Definition ascending (s : list F) : Prop :=
  StronglySorted (λ u v, Fltb v u = false) s.

(** [random.seed(s)], then [m]. *)
Definition seeded {A} (s : Z) (m : Py.M (G:=G) A) : Py.M (G:=G) A :=
  do _ <- np.random_seed s;; m.

(** From [g1] and from [g2] the generator draws the same [k] orders of [n]
    objects, as it does from two states set by one seed. *)
Definition same_draws (n k : nat) (g1 g2 : G) : Prop :=
  draws n k g1 = draws n k g2.

End notions.

(** ** Notions for the further properties *)

Section further_notions.
Context {F : Type} `{Scalar F}.

(** The entries of [v] and of [w] compare the same way, pair by pair: [w]
    has the length of [v], and [<] and [==] say of [w[j]] and [w[i]] what
    they say of [v[j]] and [v[i]]. *)
Definition same_order (v w : list F) : bool :=
  (length v =? length w)
  && forallb (λ p : F * F, forallb (λ q : F * F,
       Bool.eqb (Fltb q.1 p.1) (Fltb q.2 p.2)
       && Bool.eqb (Feqb q.1 p.1) (Feqb q.2 p.2)) (zip v w)) (zip v w).

(** [st] with another array in the place of [Y_res_permuted]. *)
Definition with_buffer (st : Mantel.locals F) (buf : list F) : Mantel.locals F :=
  {| Mantel.X_res := Mantel.X_res st;
     Mantel.Y_res := Mantel.Y_res st;
     Mantel.denominator := Mantel.denominator st;
     Mantel.Y_res_as_matrix := Mantel.Y_res_as_matrix st;
     Mantel.n := Mantel.n st;
     Mantel.Y_res_permuted := buf;
     Mantel.MC_corrs := Mantel.MC_corrs st |}.

End further_notions.

(** ** Tactics *)

(** Closes a goal about comparisons once each of them has a value: the laws
    in the context are applied, and what is left is a clash of values. *)
Ltac by_cases :=
  repeat match goal with
         | H : ?a = ?a → _ |- _ => specialize (H eq_refl)
         end;
  first [congruence | split; congruence].

(** ** Inputs for examples *)

Definition X3 : ndarray float := Arr2 [[0;1;2];[1;0;3];[2;3;0]]%float.
Definition Y3 : ndarray float := Arr1 [1;2;3]%float.
Definition X6 : ndarray float := Arr1 [3;1;2;6;4;5]%float.
Definition Y6 : ndarray float := Arr1 [1;5;2;3;5;3]%float.

(** Two condensed vectors of real numbers. *)
Definition XR : ndarray R := Arr1 [1; 2; 3]%R.
Definition YR : ndarray R := Arr1 [1; 3; 2]%R.

(** ** Arithmetic of pair counts *)

Lemma pairs_double n : 2 * pairs n = n * (n - 1).
Proof.
  unfold pairs. destruct n as [|n]; [done|].
  replace (S n - 1) with n by lia.
  assert (Hev : ∃ k, S n * n = 2 * k).
  { induction n as [|n [k IH]]; [by exists 0|]. exists (k + S n). lia. }
  destruct Hev as [k ->].
  rewrite (Nat.mul_comm 2 k), Nat.div_mul by done. lia.
Qed.

Lemma pairs_S n : pairs (S n) = pairs n + n.
Proof.
  pose proof (pairs_double (S n)). pose proof (pairs_double n).
  destruct n; [done|]. simpl in *. nia.
Qed.

Lemma sqrt_up_pairs n : 2 ≤ n → Nat.sqrt_up (n * (n - 1)) = n.
Proof.
  intros Hn. apply Nat.sqrt_up_unique; [lia|].
  replace (Nat.pred n) with (n - 1) by lia. nia.
Qed.

Lemma sum_row_lengths n i :
  i ≤ n → sum_list ((λ t, n - 1 - t) <$> seq 0 i) + pairs (n - i) = pairs n.
Proof.
  induction i as [|i IH]; intros Hi.
  - simpl. by rewrite Nat.sub_0_r.
  - rewrite seq_S, fmap_app, sum_list_with_app. simpl.
    rewrite <- IH by lia.
    replace (n - i) with (S (n - S i)) by lia. rewrite pairs_S. lia.
Qed.

Lemma sqrt_up_double_pairs L :
  (∃ n, L = pairs n) → L ≠ 0 →
  2 ≤ Nat.sqrt_up (L * 2) ∧ pairs (Nat.sqrt_up (L * 2)) = L.
Proof.
  intros [n ->] Hne.
  assert (2 ≤ n) as Hn.
  { destruct n as [|[|n]]; [done|done|lia]. }
  rewrite (Nat.mul_comm _ 2), pairs_double, sqrt_up_pairs by done.
  split; [done|]. done.
Qed.

(** ** Sums *)

Section products.
Context {F : Type} `{Scalar F}.
Implicit Types (a b l : list F).

Lemma mul_same_length a b :
  length a = length b → np.mul a b = inr (zip_with Fmul a b).
Proof. intros Hlen. unfold np.mul. by rewrite Hlen, Nat.eqb_refl. Qed.

Lemma mul_self a : np.mul a a = inr (zip_with Fmul a a).
Proof. by apply mul_same_length. Qed.

(** No cut of [pairwise_sum] is empty or the whole array. *)
Lemma pairwise_cut n :
  128 < n → 0 < n / 2 - (n / 2) mod 8 < n.
Proof.
  intros Hn.
  pose proof (Nat.div_mod_eq n 2). pose proof (Nat.mod_upper_bound n 2).
  pose proof (Nat.div_mod_eq (n / 2) 8). pose proof (Nat.mod_upper_bound (n / 2) 8).
  lia.
Qed.

(** The length of the array is fuel enough: with more of it the sum is the
    same. *)
Lemma pairwise_sum_fuel fuel : ∀ fuel' a,
  length a ≤ fuel → length a ≤ fuel' →
  np.pairwise_sum fuel a = np.pairwise_sum fuel' a.
Proof.
  induction fuel as [|fuel IH]; intros fuel' a Hf Hf'.
  - destruct a; [|simpl in Hf; lia]. by destruct fuel'.
  - destruct fuel' as [|fuel'].
    { destruct a; [done|simpl in Hf'; lia]. }
    cbn [np.pairwise_sum].
    destruct (length a <? 8) eqn:H8; [done|].
    destruct (length a <=? 128) eqn:H128; [done|].
    apply Nat.leb_gt in H128.
    pose proof (pairwise_cut (length a) H128) as Hcut.
    f_equal; apply IH; rewrite ?length_take, ?length_drop; lia.
Qed.

End products.

Section summation.
Context {F : Type} `{Scalar F} {exact : ExactSum F}.
Implicit Types (a l k r : list F) (x y : F).

Lemma Fadd_0_r x : Fadd x Fzero = x.
Proof. by rewrite Fadd_comm, Fadd_0_l. Qed.

Lemma total_app l k : total (l ++ k) = Fadd (total l) (total k).
Proof.
  unfold total. induction l as [|x l IH]; simpl.
  - by rewrite Fadd_0_l.
  - by rewrite IH, Fadd_assoc.
Qed.

Lemma foldl_total l : ∀ x, foldl Fadd x l = Fadd x (total l).
Proof.
  induction l as [|y l IH]; intros x; simpl.
  - by rewrite Fadd_0_r.
  - by rewrite IH, Fadd_assoc.
Qed.

Lemma sum_few_total a : np.sum_few a = total a.
Proof. unfold np.sum_few. by rewrite foldl_total, Fadd_0_l. Qed.

Lemma total_zip_add l : ∀ k,
  length l = length k →
  total (zip_with Fadd l k) = Fadd (total l) (total k).
Proof.
  induction l as [|x l IH]; intros [|y k] Hlen; try done; simpl in *.
  - by rewrite Fadd_0_l.
  - rewrite IH by lia.
    rewrite <- !Fadd_assoc. f_equal.
    rewrite !Fadd_assoc. f_equal. apply Fadd_comm.
Qed.

Lemma add_tree_total r : np.add_tree r = total r.
Proof.
  unfold np.add_tree.
  do 8 (destruct r as [|? r]; [apply sum_few_total|]).
  destruct r; [|apply sum_few_total].
  simpl. rewrite Fadd_0_r. by rewrite <- !Fadd_assoc.
Qed.

Lemma add_blocks_total n : ∀ r rest,
  length r = 8 → 8 * n ≤ length rest →
  total (np.add_blocks n r rest) = Fadd (total r) (total (take (8 * n) rest)).
Proof.
  induction n as [|n IH]; intros r rest Hr Hrest; cbn [np.add_blocks].
  - rewrite Nat.mul_0_r, take_0. apply eq_sym, Fadd_0_r.
  - rewrite IH; last first.
    { rewrite length_drop. lia. }
    { rewrite length_zip_with, length_take. lia. }
    rewrite total_zip_add by (rewrite length_take; lia).
    rewrite <- Fadd_assoc, <- total_app. do 2 f_equal.
    replace (8 * S n) with (8 + 8 * n) by lia.
    rewrite take_drop_commute.
    replace (take 8 rest) with (take 8 (take (8 + 8 * n) rest)).
    + apply take_drop.
    + rewrite take_take. f_equal; lia.
Qed.

Lemma sum_block_total a : 8 ≤ length a → np.sum_block a = total a.
Proof.
  intros Ha. unfold np.sum_block.
  pose proof (Nat.div_mod_eq (length a) 8) as Hdm.
  pose proof (Nat.mod_upper_bound (length a) 8) as Hm.
  set (whole := length a - length a mod 8).
  assert (whole = 8 * (length a / 8)) as Hwhole by (unfold whole; lia).
  assert (whole / 8 = length a / 8) as Hq.
  { rewrite Hwhole, Nat.mul_comm. by apply Nat.div_mul. }
  assert (1 ≤ length a / 8) as Hone by lia.
  rewrite foldl_total, add_tree_total, add_blocks_total; last first.
  { rewrite length_drop. lia. }
  { rewrite length_take. lia. }
  rewrite <- !total_app. f_equal.
  rewrite <- (take_drop 8 a) at 4. rewrite <- app_assoc. f_equal.
  rewrite <- (take_drop (8 * (whole / 8 - 1)) (drop 8 a)) at 2. f_equal.
  rewrite drop_drop. f_equal. lia.
Qed.

Lemma pairwise_sum_total fuel : ∀ a, np.pairwise_sum fuel a = total a.
Proof.
  induction fuel as [|fuel IH]; intros a; cbn [np.pairwise_sum].
  - destruct (length a <? 8) eqn:H8; [apply sum_few_total|].
    apply Nat.ltb_ge in H8.
    destruct (length a <=? 128); by apply sum_block_total.
  - destruct (length a <? 8) eqn:H8; [apply sum_few_total|].
    apply Nat.ltb_ge in H8.
    destruct (length a <=? 128); [by apply sum_block_total|].
    by rewrite !IH, <- total_app, take_drop.
Qed.

(** With exact addition, [np.sum] is the sum. *)
Lemma sum_total a : np.sum a = total a.
Proof.
  unfold np.sum. destruct a as [|x a]; [done|].
  by rewrite pairwise_sum_total, Fadd_0_l.
Qed.

Lemma mean_arithmetic_mean a : np.mean a = arithmetic_mean a.
Proof. unfold np.mean, arithmetic_mean. by rewrite sum_total. Qed.

Lemma residuals_deviations a : residuals a = deviations a.
Proof.
  unfold residuals, deviations, np.sub_scalar. by rewrite mean_arithmetic_mean.
Qed.

Lemma std_population_sd a : np.std a 0 = population_sd a.
Proof.
  unfold np.std, population_sd, np.sub_scalar.
  rewrite sum_total, mean_arithmetic_mean, Nat.sub_0_r.
  do 3 f_equal. rewrite zip_with_diag, <- list_fmap_compose. done.
Qed.

Lemma pearson_pearson_coefficient a b : pearson a b = pearson_coefficient a b.
Proof.
  unfold pearson, pearson_coefficient, correlation, sum_of_products, deviations,
    arithmetic_mean.
  by rewrite !sum_total.
Qed.

End summation.

(** ** Matrices and condensed vectors *)

Section matrices.
Context {F : Type} `{Scalar F}.
Implicit Types (M : list (list F)) (v : list F) (order : list nat).

Lemma forallb_seq (p : nat → bool) n :
  forallb p (seq 0 n) = true ↔ ∀ i, i < n → p i = true.
Proof.
  rewrite <- Is_true_true, forallb_True, Forall_seq.
  split; intros Hp i.
  - intros Hi. apply Is_true_true, Hp. lia.
  - intros Hi. apply Is_true_true, Hp. lia.
Qed.

Lemma entry_tabulate (f : nat → nat → F) n i j :
  i < n → j < n →
  np.entry ((λ i, (λ j, f i j) <$> seq 0 n) <$> seq 0 n) i j = f i j.
Proof.
  intros Hi Hj. unfold np.entry.
  rewrite list_lookup_fmap, lookup_seq_lt by done. simpl.
  by rewrite list_lookup_fmap, lookup_seq_lt.
Qed.

Lemma entry_permute M order a b i j :
  order !! a = Some i → order !! b = Some j →
  np.entry (permute M order) a b = np.entry M i j.
Proof.
  intros Ha Hb. unfold permute, np.entry at 1.
  rewrite list_lookup_fmap, Ha. simpl.
  by rewrite list_lookup_fmap, Hb.
Qed.

Lemma length_rows_from_pairs (g : nat → nat → F) n k :
  length (seq 0 k ≫= (λ i, g i <$> seq (S i) (n - S i)))
  = sum_list ((λ t, n - 1 - t) <$> seq 0 k).
Proof.
  induction k as [|k IH]; [done|].
  rewrite seq_S, bind_app, fmap_app, sum_list_with_app, length_app, IH.
  simpl. rewrite app_nil_r, length_fmap, length_seq. lia.
Qed.

Lemma length_upper_triangle M :
  length (distance.upper_triangle M) = pairs (length M).
Proof.
  unfold distance.upper_triangle.
  rewrite (length_rows_from_pairs (λ i j, np.entry M i j)).
  pose proof (sum_row_lengths (length M) (length M - 1)) as Hs.
  destruct (length M) as [|n]; [done|].
  replace (S n - (S n - 1)) with 1 in Hs by lia.
  change (pairs 1) with 0 in Hs. lia.
Qed.

Lemma to_vector_from_squareform_wrap_full M v :
  length v = pairs (length M) →
  distance.to_vector_from_squareform_wrap M v = distance.upper_triangle M.
Proof.
  intros Hv. unfold distance.to_vector_from_squareform_wrap.
  rewrite drop_ge, app_nil_r; [done|].
  rewrite length_upper_triangle. lia.
Qed.

Lemma length_to_squareform_from_vector_wrap M v :
  length (distance.to_squareform_from_vector_wrap M v) = length M.
Proof.
  unfold distance.to_squareform_from_vector_wrap.
  by rewrite length_fmap, length_seq.
Qed.

Lemma square_to_squareform_from_vector_wrap M v :
  Forall (λ row, length row = length M)
         (distance.to_squareform_from_vector_wrap M v).
Proof.
  unfold distance.to_squareform_from_vector_wrap.
  apply Forall_fmap, Forall_forall. intros i _. simpl.
  by rewrite length_fmap, length_seq.
Qed.

Lemma length_zeros2 n m : length (np.zeros2 (F:=F) n m) = n.
Proof. apply length_replicate. Qed.

(** The rows of the upper triangle of the matrix written from [v] are the
    successive pieces of [v]. *)
Lemma upper_triangle_row M v i :
  let n := length M in
  sum_list ((λ t, n - 1 - t) <$> seq 0 (S i)) ≤ length v → i < n →
  (λ j, np.entry (distance.to_squareform_from_vector_wrap M v) i j)
    <$> seq (S i) (n - S i)
  = take (n - 1 - i) (drop (sum_list ((λ t, n - 1 - t) <$> seq 0 i)) v).
Proof.
  intros n Hlen Hi.
  rewrite seq_S, fmap_app, sum_list_with_app in Hlen. simpl in Hlen.
  apply list_eq. intros t.
  rewrite list_lookup_fmap, lookup_take, lookup_drop.
  destruct (decide (t < n - 1 - i)) as [Ht|Ht].
  - rewrite lookup_seq_lt by lia. simpl.
    unfold distance.to_squareform_from_vector_wrap. fold n.
    rewrite entry_tabulate by lia.
    rewrite decide_True by lia.
    unfold distance.condensed_index.
    replace (S (i + t) - i - 1) with t by lia.
    destruct (lookup_lt_is_Some_2 v (sum_list ((λ t0, n - 1 - t0) <$> seq 0 i) + t))
      as [x Hx]; [lia|].
    by rewrite Hx.
  - by rewrite lookup_seq_ge by lia.
Qed.

Lemma upper_triangle_rows M v k :
  let n := length M in
  sum_list ((λ t, n - 1 - t) <$> seq 0 k) ≤ length v → k ≤ n →
  seq 0 k ≫= (λ i, (λ j, np.entry (distance.to_squareform_from_vector_wrap M v) i j)
                     <$> seq (S i) (n - S i))
  = take (sum_list ((λ t, n - 1 - t) <$> seq 0 k)) v.
Proof.
  intros n. induction k as [|k IH]; intros Hlen Hk; [done|].
  pose proof Hlen as Hrow.
  rewrite seq_S, fmap_app, sum_list_with_app in Hlen |- *. simpl in Hlen.
  rewrite bind_app, IH by lia. simpl.
  rewrite app_nil_r, upper_triangle_row by (done || lia).
  rewrite take_take_drop. f_equal. unfold n. lia.
Qed.

Lemma upper_triangle_to_squareform M v :
  length v = pairs (length M) →
  distance.upper_triangle (distance.to_squareform_from_vector_wrap M v) = v.
Proof.
  intros Hv. unfold distance.upper_triangle.
  rewrite length_to_squareform_from_vector_wrap.
  pose proof (sum_row_lengths (length M) (length M - 1)) as Hs.
  assert (pairs (length M - (length M - 1)) = 0) as H0.
  { destruct (length M) as [|n]; [done|].
    by replace (S n - (S n - 1)) with 1 by lia. }
  rewrite upper_triangle_rows by lia.
  apply take_ge. lia.
Qed.

Lemma is_valid_dm_spec (X : ndarray F) :
  distance.is_valid_dm X = true ↔ is_distance_matrix X.
Proof.
  destruct X as [v|rows]; simpl; [split; [done|tauto]|].
  rewrite !andb_true_iff, !forallb_seq.
  rewrite <- Is_true_true, forallb_True.
  split.
  - intros [[Hsq Hsym] Hdiag].
    split_and!; [|intros i j Hi Hj; exact (proj1 (forallb_seq _ _) (Hsym i Hi) j Hj)|done].
    eapply Forall_impl; [exact Hsq|]. intros row Hrow.
    by apply Nat.eqb_eq, Is_true_true.
  - intros (Hsq & Hsym & Hdiag).
    split_and!; [|intros i Hi; apply forallb_seq; intros j Hj; by apply Hsym|done].
    eapply Forall_impl; [exact Hsq|]. intros row Hrow.
    by apply Is_true_true, Nat.eqb_eq.
Qed.

Lemma is_valid_y_spec (X : ndarray F) :
  distance.is_valid_y X = true ↔ is_condensed_vector X.
Proof.
  destruct X as [v|rows]; simpl; [|split; [done|tauto]].
  fold (pairs (Nat.sqrt_up (length v * 2))). rewrite Nat.eqb_eq.
  split; [by eauto|]. intros Hv.
  destruct (decide (length v = 0)) as [->|Hne]; [done|].
  by apply sqrt_up_double_pairs.
Qed.

Lemma valid_cases (X : ndarray F) :
  Mantel.not_a_distance_matrix X = false ↔
  is_distance_matrix X ∨ is_condensed_vector X.
Proof.
  unfold Mantel.not_a_distance_matrix.
  rewrite <- is_valid_dm_spec, <- is_valid_y_spec.
  destruct (distance.is_valid_dm X), (distance.is_valid_y X); simpl;
    intuition congruence.
Qed.

Lemma condense_valid (X : ndarray F) :
  Mantel.not_a_distance_matrix X = false →
  Mantel.condense X = inr (Arr1 (condensed_form X)).
Proof.
  intros HX. apply valid_cases in HX.
  destruct X as [v|rows]; [done|].
  destruct HX as [(Hsq & _ & _)|[]].
  unfold Mantel.condense, distance.squareform. simpl.
  assert (forallb (λ row : list F, length row =? length rows) rows = true) as ->.
  { apply Is_true_true, forallb_True. eapply Forall_impl; [exact Hsq|].
    intros row Hrow. by apply Is_true_true, Nat.eqb_eq. }
  simpl. destruct (length rows <=? 1) eqn:Hd.
  - apply Nat.leb_le in Hd. f_equal. f_equal. symmetry.
    apply length_zero_iff_nil. rewrite length_upper_triangle.
    by destruct (length rows) as [|[|?]]; [| |lia].
  - rewrite to_vector_from_squareform_wrap_full; [done|].
    unfold np.zeros. by rewrite length_replicate.
Qed.

Lemma condensed_form_valid (X : ndarray F) :
  Mantel.not_a_distance_matrix X = false →
  ∃ n, length (condensed_form X) = pairs n.
Proof.
  intros HX. apply valid_cases in HX.
  destruct X as [v|rows]; simpl in *.
  - by destruct HX as [[]|?].
  - exists (length rows). apply length_upper_triangle.
Qed.

Lemma pairs_objects v :
  (∃ n, length v = pairs n) → pairs (objects v) = length v.
Proof.
  intros Hv. unfold objects.
  destruct (length v =? 0) eqn:H0.
  - by apply Nat.eqb_eq in H0 as ->.
  - apply Nat.eqb_neq in H0. by apply sqrt_up_double_pairs.
Qed.

Lemma length_matrix_form v : length (matrix_form v) = objects v.
Proof.
  unfold matrix_form, objects. destruct (length v =? 0); [done|].
  by rewrite length_to_squareform_from_vector_wrap, length_zeros2.
Qed.

Lemma square_matrix_form v :
  Forall (λ row, length row = objects v) (matrix_form v).
Proof.
  unfold matrix_form, objects. destruct (length v =? 0).
  - by repeat constructor.
  - set (d := Nat.sqrt_up (length v * 2)).
    pose proof (square_to_squareform_from_vector_wrap (np.zeros2 d d) v) as Hs.
    by rewrite length_zeros2 in Hs.
Qed.

Lemma squareform_tomatrix v :
  (∃ n, length v = pairs n) →
  distance.squareform (Arr1 v) "tomatrix" false = inr (Arr2 (matrix_form v)).
Proof.
  intros Hv. unfold distance.squareform, matrix_form. simpl.
  destruct (length v =? 0) eqn:H0; [done|].
  apply Nat.eqb_neq in H0.
  destruct (sqrt_up_double_pairs (length v) Hv H0) as [_ Hd].
  pose proof (pairs_double (Nat.sqrt_up (length v * 2))) as H2.
  rewrite Hd in H2.
  assert ((Nat.sqrt_up (length v * 2) * (Nat.sqrt_up (length v * 2) - 1)
           =? length v * 2) = true) as ->; [|done].
  apply Nat.eqb_eq. lia.
Qed.

Lemma upper_triangle_matrix_form v :
  (∃ n, length v = pairs n) → distance.upper_triangle (matrix_form v) = v.
Proof.
  intros Hv. pose proof (pairs_objects v Hv) as Hp.
  unfold matrix_form, objects in *. destruct (length v =? 0) eqn:H0.
  - apply Nat.eqb_eq in H0. by destruct v.
  - apply upper_triangle_to_squareform. by rewrite length_zeros2.
Qed.

Lemma objects_length (v w : list F) : length v = length w → objects v = objects w.
Proof. unfold objects. by intros ->. Qed.

Lemma entry_matrix_form v a b :
  a < objects v → b < objects v →
  np.entry (matrix_form v) a b = distance_between v (objects v) a b.
Proof.
  unfold matrix_form, objects, distance_between.
  destruct (length v =? 0); intros Ha Hb.
  - replace a with 0 by lia. replace b with 0 by lia. done.
  - unfold distance.to_squareform_from_vector_wrap.
    rewrite length_zeros2, entry_tabulate by done.
    repeat case_decide; try done.
    unfold np.entry, np.zeros2, np.zeros.
    rewrite lookup_replicate_2 by done. simpl.
    by rewrite lookup_replicate_2 by done.
Qed.

Lemma bind_ext_in {A B} (f h : A → list B) (l : list A) :
  (∀ x, x ∈ l → f x = h x) → l ≫= f = l ≫= h.
Proof.
  induction l as [|x l IH]; intros Hfh; [done|].
  rewrite !bind_cons, Hfh, IH; [done| |].
  - intros y Hy. apply Hfh. by right.
  - by left.
Qed.

(** The upper triangle of the permuted matrix form of [v] is [v] with its
    objects relabelled. *)
Lemma upper_triangle_relabelled v order :
  length order = objects v → Forall (λ i, i < objects v) order →
  distance.upper_triangle (permute (matrix_form v) order) = relabelled v order.
Proof.
  intros Hlen Hord. unfold distance.upper_triangle, relabelled.
  replace (length (permute (matrix_form v) order)) with (length order)
    by (unfold permute; by rewrite length_fmap).
  apply bind_ext_in. intros i Hi%elem_of_seq.
  apply list_fmap_ext. intros t j Hj%lookup_seq.
  destruct (lookup_lt_is_Some_2 order i) as [a Ha]; [lia|].
  destruct (lookup_lt_is_Some_2 order j) as [b Hb]; [lia|].
  rewrite Forall_lookup in Hord.
  rewrite (entry_permute _ _ _ _ a b) by done.
  rewrite (list_lookup_total_correct _ _ _ Ha), (list_lookup_total_correct _ _ _ Hb).
  rewrite Hlen. apply entry_matrix_form; eauto.
Qed.

End matrices.

(** ** The Monte Carlo loop *)

Section loop.
Context {F : Type} `{Scalar F} {G : Type} `{RandomState G}.
Implicit Types (M : list (list F)) (st : Mantel.locals F) (g : G).

Lemma mapM_fmap_Some {A B} (f : A → option B) (h : A → B) (l : list A) :
  Forall (λ x, f x = Some (h x)) l → mapM f l = Some (h <$> l).
Proof.
  induction 1 as [|x l Hx _ IH]; [done|].
  simpl. rewrite Hx. simpl. by rewrite IH.
Qed.

Lemma permutation_lt k g : Forall (λ i, i < k) (permutation k g).1.
Proof.
  apply Forall_forall. intros i Hi.
  rewrite (permutation_perm k g) in Hi.
  apply elem_of_seq in Hi. lia.
Qed.

Lemma permutation_length k g : length (permutation k g).1 = k.
Proof. by rewrite (permutation_perm k g), length_seq. Qed.

Lemma take_rows_cols M order k :
  length M = k → Forall (λ row, length row = k) M → Forall (λ i, i < k) order →
  np.take_rows M order ≫= (λ R, np.take_cols R order) = Some (permute M order).
Proof.
  intros HM Hsq Hord. unfold np.take_rows, np.take_cols.
  rewrite (mapM_fmap_Some _ (λ i, default [] (M !! i))); last first.
  { eapply Forall_impl; [exact Hord|]. intros i Hi. simpl in Hi |- *.
    destruct (lookup_lt_is_Some_2 M i) as [row ->]; [lia|done]. }
  simpl.
  rewrite (mapM_fmap_Some _ (λ row : list F, (λ j, default Fzero (row !! j)) <$> order));
    last first.
  { apply Forall_fmap, Forall_forall. intros i Hi. simpl in Hi |- *.
    apply mapM_fmap_Some.
    eapply Forall_impl; [exact Hord|]. intros j Hj. simpl in Hj |- *.
    rewrite Forall_forall in Hord. specialize (Hord i Hi).
    destruct (lookup_lt_is_Some_2 M i) as [row Hrow]; [lia|].
    rewrite Hrow. simpl.
    rewrite Forall_lookup in Hsq. specialize (Hsq i row Hrow).
    destruct (lookup_lt_is_Some_2 row j) as [x ->]; [lia|done]. }
  f_equal. unfold permute. rewrite <- list_fmap_compose.
  apply list_fmap_ext. intros _ i _. simpl.
  apply list_fmap_ext. intros _ j _. unfold np.entry.
  by destruct (M !! i).
Qed.

(** One pass of the loop, once the order is drawn and the buffer is
    overwritten. *)
Lemma trial_unfold i st g :
  loop_ready st →
  Mantel.trial i st g
  = let order := (permutation (Mantel.n st) g).1 in
    let Y_res_permuted' :=
      distance.upper_triangle (permute (Mantel.Y_res_as_matrix st) order) in
    (do products <- Py.lift (np.mul (Mantel.X_res st) Y_res_permuted');;
     match np.setitem (Mantel.MC_corrs st) i
             (Fdiv (np.sum products) (Mantel.denominator st)) with
     | None => Py.raise (IndexError "index out of bounds")
     | Some MC_corrs' =>
         Py.ret {| Mantel.X_res := Mantel.X_res st;
                   Mantel.Y_res := Mantel.Y_res st;
                   Mantel.denominator := Mantel.denominator st;
                   Mantel.Y_res_as_matrix := Mantel.Y_res_as_matrix st;
                   Mantel.n := Mantel.n st;
                   Mantel.Y_res_permuted := Y_res_permuted';
                   Mantel.MC_corrs := MC_corrs' |}
     end) (permutation (Mantel.n st) g).2.
Proof.
  intros (HM & Hsq & Hbuf).
  unfold Mantel.trial, np.random_permutation.
  unfold Py.bind at 1. cbn beta iota zeta.
  pose proof (permutation_lt (Mantel.n st) g) as Hlt.
  pose proof (permutation_length (Mantel.n st) g) as Hlen.
  rewrite (take_rows_cols _ _ (Mantel.n st)) by done.
  rewrite to_vector_from_squareform_wrap_full; [done|].
  unfold permute. by rewrite length_fmap, Hlen.
Qed.

Lemma trial_ok i st g :
  loop_ready st → length (Mantel.X_res st) = pairs (Mantel.n st) →
  i < length (Mantel.MC_corrs st) →
  Mantel.trial i st g
  = (inr (after_trial st i (permutation (Mantel.n st) g).1),
     (permutation (Mantel.n st) g).2).
Proof.
  intros Hready HX Hi. rewrite trial_unfold by done. cbn zeta.
  unfold Py.bind, Py.lift.
  rewrite mul_same_length; last first.
  { rewrite length_upper_triangle. unfold permute.
    by rewrite length_fmap, permutation_length. }
  unfold np.setitem. rewrite decide_True by done. done.
Qed.

Lemma loop_ready_after_trial st i g :
  loop_ready st → loop_ready (after_trial st i (permutation (Mantel.n st) g).1).
Proof.
  intros (HM & Hsq & Hbuf). split_and!; simpl; [done..|].
  rewrite length_upper_triangle. unfold permute.
  by rewrite length_fmap, permutation_length.
Qed.

Lemma for_trials k : ∀ a st g,
  loop_ready st → length (Mantel.X_res st) = pairs (Mantel.n st) →
  a + k ≤ length (Mantel.MC_corrs st) →
  ∃ st', Py.for_ (seq a k) Mantel.trial st g
         = (inr st', after_draws (Mantel.n st) k g)
    ∧ Mantel.X_res st' = Mantel.X_res st
    ∧ Mantel.Y_res st' = Mantel.Y_res st
    ∧ Mantel.denominator st' = Mantel.denominator st
    ∧ Mantel.MC_corrs st'
      = take a (Mantel.MC_corrs st)
        ++ (sample st <$> draws (Mantel.n st) k g)
        ++ drop (a + k) (Mantel.MC_corrs st).
Proof.
  induction k as [|k IH]; intros a st g Hready HXlen Hlen.
  - exists st. simpl. split_and!; try done.
    by rewrite Nat.add_0_r, take_drop.
  - simpl. unfold Py.bind. rewrite trial_ok by (done || lia).
    set (order := (permutation (Mantel.n st) g).1).
    set (g' := (permutation (Mantel.n st) g).2).
    destruct (IH (S a) (after_trial st a order) g') as (st' & Hrun & HX & HY & Hd & HMC).
    { by apply loop_ready_after_trial. }
    { done. }
    { simpl. rewrite length_insert. lia. }
    exists st'. split_and!; try done.
    rewrite HMC. simpl.
    rewrite (take_S_r _ _ (sample st order)), take_insert_ge by
      (done || apply list_lookup_insert_eq; lia).
    rewrite drop_insert_lt by lia.
    rewrite <- app_assoc. simpl.
    change (sample (after_trial st a order)) with (sample st).
    by replace (a + S k) with (S (a + k)) by lia.
Qed.

Lemma monte_carlo_ok perms st g :
  loop_ready st → length (Mantel.X_res st) = pairs (Mantel.n st) →
  length (Mantel.MC_corrs st) = Z.to_nat perms →
  ∃ st', Mantel.monte_carlo perms st g
         = (inr st', after_draws (Mantel.n st) (Z.to_nat perms) g)
    ∧ Mantel.X_res st' = Mantel.X_res st
    ∧ Mantel.Y_res st' = Mantel.Y_res st
    ∧ Mantel.denominator st' = Mantel.denominator st
    ∧ Mantel.MC_corrs st' = sample st <$> draws (Mantel.n st) (Z.to_nat perms) g.
Proof.
  intros Hready HXlen Hlen. unfold Mantel.monte_carlo.
  destruct (for_trials (Z.to_nat perms) 0 st g) as (st' & Hrun & HX & HY & Hd & HMC);
    [done|done|lia|].
  exists st'. split_and!; try done.
  rewrite HMC, drop_ge, app_nil_r by lia. done.
Qed.

Lemma length_draws k j g : length (draws k j g) = j.
Proof. revert g. induction j as [|j IH]; intros g; simpl; [done|by rewrite IH]. Qed.

Lemma length_to_ranks method (x : list F) :
  length (Mantel.to_ranks method x) = length x.
Proof.
  unfold Mantel.to_ranks, stats.rankdata.
  destruct (String.eqb method "spearman"); [by rewrite length_fmap|done].
Qed.

Lemma length_residuals (x : list F) : length (residuals x) = length x.
Proof. unfold residuals, np.sub_scalar. by rewrite length_fmap. Qed.

Lemma prepare_ok (X Y : list F) perms :
  (∃ k, length Y = pairs k) → (0 ≤ perms)%Z →
  Mantel.prepare X Y perms = inr (initial X Y perms).
Proof.
  intros HY Hperms. unfold Mantel.prepare.
  fold (residuals X) (residuals Y).
  rewrite !mul_self. cbn [Py.and_then].
  rewrite squareform_tomatrix by (by rewrite length_residuals).
  destruct (Z.ltb_spec perms 0); [lia|done].
Qed.

Lemma report_ok st :
  length (Mantel.X_res st) = length (Mantel.Y_res st) →
  Mantel.report st = inr (statistics st).
Proof.
  intros Hlen. unfold Mantel.report. by rewrite mul_same_length.
Qed.

Lemma shapes_initial (X Y : list F) perms :
  length X = length Y → (∃ k, length Y = pairs k) →
  length (Mantel.X_res (initial X Y perms)) = pairs (Mantel.n (initial X Y perms)).
Proof.
  intros Hlen HY. simpl.
  rewrite length_matrix_form, pairs_objects, !length_residuals; [done|].
  by rewrite length_residuals.
Qed.

Lemma loop_ready_initial (X Y : list F) perms :
  (∃ k, length Y = pairs k) → loop_ready (initial X Y perms).
Proof.
  intros HY. rewrite <- length_residuals in HY.
  split_and!; simpl.
  - done.
  - rewrite length_matrix_form. apply square_matrix_form.
  - unfold np.zeros. by rewrite length_replicate, length_matrix_form, pairs_objects.
Qed.

End loop.

(** ** What [Test] returns *)

Section Test_cases.
Context {F : Type} `{Scalar F} {G : Type} `{RandomState G}.
Implicit Types (X Y : ndarray F) (st : Mantel.locals F) (g : G).

Lemma Test_invalid_X X Y perms method g :
  Mantel.not_a_distance_matrix X = true →
  Mantel.Test X Y perms method g
  = (inl (ValueError "X is not a valid distance matrix"), g).
Proof. intros HX. unfold Mantel.Test. by rewrite HX. Qed.

Lemma Test_invalid_Y X Y perms method g :
  Mantel.not_a_distance_matrix X = false →
  Mantel.not_a_distance_matrix Y = true →
  Mantel.Test X Y perms method g
  = (inl (ValueError "Y is not a valid distance matrix"), g).
Proof. intros HX HY. unfold Mantel.Test. by rewrite HX, HY. Qed.

Lemma Test_condensed X Y perms method g :
  Mantel.not_a_distance_matrix X = false →
  Mantel.not_a_distance_matrix Y = false →
  Mantel.Test X Y perms method g
  = if negb (length (condensed_form X) =? length (condensed_form Y)) then
      (inl (ValueError "X and Y are not of equal size"), g)
    else
      Mantel.correlate (Mantel.to_ranks method (condensed_form X))
                       (Mantel.to_ranks method (condensed_form Y)) perms g.
Proof.
  intros HX HY. unfold Mantel.Test. rewrite HX, HY.
  unfold Py.bind, Py.lift. rewrite !condense_valid by done. simpl.
  by destruct (length (condensed_form X) =? length (condensed_form Y)).
Qed.

Lemma correlate_negative (x y : list F) perms g :
  (∃ k, length y = pairs k) → (perms < 0)%Z →
  Mantel.correlate x y perms g
  = (inl (ValueError "negative dimensions are not allowed"), g).
Proof.
  intros Hy Hperms. unfold Mantel.correlate, Py.bind, Py.lift, Mantel.prepare.
  fold (residuals x) (residuals y).
  rewrite !mul_self. cbn [Py.and_then].
  rewrite squareform_tomatrix by (by rewrite length_residuals).
  by destruct (Z.ltb_spec perms 0); [|lia].
Qed.

Lemma correlate_ok (x y : list F) perms g :
  length x = length y → (∃ k, length y = pairs k) → (0 ≤ perms)%Z →
  let st := initial x y perms in
  ∃ st',
    Mantel.monte_carlo perms st g
    = (inr st', after_draws (Mantel.n st) (Z.to_nat perms) g)
    ∧ Mantel.X_res st' = Mantel.X_res st
    ∧ Mantel.Y_res st' = Mantel.Y_res st
    ∧ Mantel.denominator st' = Mantel.denominator st
    ∧ Mantel.MC_corrs st' = sample st <$> draws (Mantel.n st) (Z.to_nat perms) g
    ∧ Mantel.correlate x y perms g
      = (inr (statistics st'), after_draws (Mantel.n st) (Z.to_nat perms) g).
Proof.
  intros Hlen Hy Hperms st.
  destruct (monte_carlo_ok perms st g) as (st' & Hrun & HX & HY & Hd & HMC).
  { by apply loop_ready_initial. }
  { by apply shapes_initial. }
  { simpl. unfold np.zeros. by rewrite length_replicate. }
  exists st'. split_and!; try done.
  unfold Mantel.correlate, Py.bind, Py.lift.
  rewrite prepare_ok by done. fold st. rewrite Hrun.
  rewrite report_ok; [done|].
  rewrite HX, HY. simpl. by rewrite !length_residuals.
Qed.

Lemma Test_valid X Y perms method g :
  Mantel.not_a_distance_matrix X = false →
  Mantel.not_a_distance_matrix Y = false →
  length (condensed_form X) = length (condensed_form Y) →
  (0 ≤ perms)%Z →
  let st := initial (Mantel.to_ranks method (condensed_form X))
                    (Mantel.to_ranks method (condensed_form Y)) perms in
  ∃ st',
    Mantel.monte_carlo perms st g
    = (inr st', after_draws (Mantel.n st) (Z.to_nat perms) g)
    ∧ Mantel.X_res st' = Mantel.X_res st
    ∧ Mantel.Y_res st' = Mantel.Y_res st
    ∧ Mantel.denominator st' = Mantel.denominator st
    ∧ Mantel.MC_corrs st' = sample st <$> draws (Mantel.n st) (Z.to_nat perms) g
    ∧ Mantel.Test X Y perms method g
      = (inr (statistics st'), after_draws (Mantel.n st) (Z.to_nat perms) g).
Proof.
  intros HX HY Hlen Hperms st.
  destruct (correlate_ok (Mantel.to_ranks method (condensed_form X))
              (Mantel.to_ranks method (condensed_form Y)) perms g)
    as (st' & Hrun & HXr & HYr & Hd & HMC & Hcor); [| |done|].
  { by rewrite !length_to_ranks. }
  { rewrite length_to_ranks. by apply condensed_form_valid. }
  exists st'. split_and!; try done.
  rewrite Test_condensed by done.
  by rewrite Hlen, Nat.eqb_refl.
Qed.

Lemma draws_lookup k j g i order :
  draws k j g !! i = Some order → order ≡ₚ seq 0 k.
Proof.
  revert g i. induction j as [|j IH]; intros g i; [done|].
  destruct i as [|i]; simpl.
  - intros [= <-]. apply permutation_perm.
  - apply IH.
Qed.

End Test_cases.

(** ** Ranks and sorted order *)

Section ranks.
Context {F : Type} `{Scalar F}.
Implicit Types (l s a : list F) (x y : F).

Lemma orderly_laws l u v w :
  orderly l = true → u ∈ l → v ∈ l → w ∈ l →
  Fltb u u = false
  ∧ (Fltb u v = true → Fltb v w = true → Fltb u w = true)
  ∧ Feqb u v = (negb (Fltb u v) && negb (Fltb v u))
  ∧ (Feqb u v = true → Feqb v w = true → Feqb u w = true).
Proof.
  unfold orderly. intros Hl Hu Hv Hw.
  apply Is_true_true, forallb_True in Hl.
  rewrite Forall_forall in Hl. specialize (Hl u Hu).
  apply forallb_True in Hl.
  rewrite Forall_forall in Hl. specialize (Hl v Hv).
  apply forallb_True in Hl.
  rewrite Forall_forall in Hl. specialize (Hl w Hw).
  apply Is_true_true in Hl.
  destruct (Fltb u u), (Fltb u v), (Fltb v w), (Fltb u w), (Fltb v u),
    (Feqb u v), (Feqb v w), (Feqb u w); simpl in Hl; done.
Qed.

(** An element not below [h] is not below [x], when [h == x]. *)
Lemma not_below_tie l h x z :
  orderly l = true → h ∈ l → x ∈ l → z ∈ l →
  Feqb h x = true → Fltb z h = false → Fltb z x = false.
Proof.
  intros Hl Hh Hx Hz Heq Hzh.
  destruct (orderly_laws l h z x Hl) as (_ & ? & ? & ?); [done..|].
  destruct (orderly_laws l z h x Hl) as (_ & ? & ? & ?); [done..|].
  destruct (orderly_laws l h x x Hl) as (_ & ? & ? & ?); [done..|].
  destruct (orderly_laws l z x x Hl) as (_ & ? & ? & ?); [done..|].
  rewrite ?Heq, ?Hzh in *.
  destruct (Fltb z x), (Fltb h z), (Fltb h x), (Fltb x h), (Feqb z h),
    (Feqb z x), (Fltb x z); simpl in *; by_cases.
Qed.

(** An element not below [h] is neither below nor equal to [x], when
    [x < h]. *)
Lemma not_below_above l h x z :
  orderly l = true → h ∈ l → x ∈ l → z ∈ l →
  Fltb x h = true → Fltb z h = false →
  Fltb z x = false ∧ Feqb z x = false.
Proof.
  intros Hl Hh Hx Hz Hxh Hzh.
  destruct (orderly_laws l z x h Hl) as (_ & ? & ? & ?); [done..|].
  destruct (orderly_laws l x h z Hl) as (_ & ? & ? & ?); [done..|].
  destruct (orderly_laws l x z h Hl) as (_ & ? & ? & ?); [done..|].
  destruct (orderly_laws l z h h Hl) as (_ & ? & ? & ?); [done..|].
  destruct (orderly_laws l x h h Hl) as (_ & ? & ? & ?); [done..|].
  rewrite ?Hxh, ?Hzh in *.
  destruct (Fltb z x), (Fltb h z), (Fltb h x), (Feqb z h), (Feqb x h),
    (Feqb z x), (Feqb x z), (Fltb x z); simpl in *; by_cases.
Qed.

Lemma count_lt_cons h s x :
  stats.count_lt (h :: s) x
  = (if Fltb h x then 1 else 0) + stats.count_lt s x.
Proof.
  unfold stats.count_lt. rewrite filter_cons.
  destruct (Fltb h x); by case_decide.
Qed.

Lemma count_eq_cons h s x :
  stats.count_eq (h :: s) x
  = (if Feqb h x then 1 else 0) + stats.count_eq s x.
Proof.
  unfold stats.count_eq. rewrite filter_cons.
  destruct (Feqb h x); by case_decide.
Qed.

Lemma count_lt_none s x :
  Forall (λ z, Fltb z x = false) s → stats.count_lt s x = 0.
Proof.
  induction 1 as [|z s Hz _ IH]; [done|].
  by rewrite count_lt_cons, Hz, IH.
Qed.

Lemma count_eq_none s x :
  Forall (λ z, Feqb z x = false) s → stats.count_eq s x = 0.
Proof.
  induction 1 as [|z s Hz _ IH]; [done|].
  by rewrite count_eq_cons, Hz, IH.
Qed.

(** In a list in ascending order, the elements equal to [x] stand right
    after the elements smaller than [x]. *)
Lemma ascending_ties l s x :
  orderly l = true → x ∈ l → Forall (λ y, y ∈ l) s → ascending s →
  ∀ j y, s !! j = Some y →
    (Feqb y x = true
     ↔ stats.count_lt s x ≤ j < stats.count_lt s x + stats.count_eq s x).
Proof.
  intros Hl Hx Hs Hasc. induction Hasc as [|h t _ IH Hh]; [done|].
  apply Forall_cons in Hs as [Hhl Htl]. specialize (IH Htl).
  assert (Forall (λ z, z ∈ l ∧ Fltb z h = false) t) as Ht.
  { apply Forall_and. split; [done|]. done. }
  destruct (orderly_laws l h x x Hl) as (_ & _ & E & _); [done..|].
  intros j y Hj. rewrite count_lt_cons, count_eq_cons.
  destruct (Fltb h x) eqn:Hlt.
  - (* [h] is smaller than [x] *)
    simpl in E. rewrite E.
    destruct j as [|j]; simpl in Hj.
    + injection Hj as <-. rewrite E. split; [done|lia].
    + rewrite (IH j y Hj). lia.
  - destruct (Feqb h x) eqn:Heq.
    + (* [h] equals [x]: nothing after it is smaller *)
      assert (stats.count_lt t x = 0) as Hnone.
      { apply count_lt_none.
        eapply Forall_impl; [exact Ht|]. intros z [Hz Hzh]. simpl.
        by eapply (not_below_tie l h x z). }
      rewrite Hnone in IH |- *.
      destruct j as [|j]; simpl in Hj.
      * injection Hj as <-. rewrite Heq. split; [lia|done].
      * rewrite (IH j y Hj). lia.
    + (* [h] is larger than [x]: so is all that follows *)
      assert (Fltb x h = true) as Hxh.
      { destruct (orderly_laws l h x x Hl) as (_ & _ & E' & _); [done..|].
        rewrite Heq, Hlt in E'. simpl in E'. symmetry in E'.
        by apply negb_false_iff in E'. }
      assert (stats.count_lt t x = 0) as ->.
      { apply count_lt_none.
        eapply Forall_impl; [exact Ht|]. intros z [Hz Hzh]. simpl.
        by eapply (not_below_above l h x z). }
      assert (stats.count_eq t x = 0) as ->.
      { apply count_eq_none.
        eapply Forall_impl; [exact Ht|]. intros z [Hz Hzh]. simpl.
        by eapply (not_below_above l h x z). }
      split; [|lia]. intros Hy.
      destruct j as [|j]; simpl in Hj.
      * injection Hj as <-. congruence.
      * rewrite Forall_lookup in Ht. destruct (Ht j y Hj) as [Hz Hzh].
        destruct (not_below_above l h x y Hl) as [_ Hne]; [done..|].
        congruence.
Qed.

(** Sorting [a] puts the elements equal to [x] at the ranks [tied_ranks]. *)
Lemma sorted_tied_ranks a s x :
  orderly (x :: a) = true → s ≡ₚ a → ascending s →
  ∀ j y, s !! j = Some y → (Feqb y x = true ↔ S j ∈ tied_ranks a x).
Proof.
  intros Hl Hperm Hasc j y Hj. unfold tied_ranks.
  rewrite elem_of_seq.
  assert (stats.count_lt a x = stats.count_lt s x) as ->.
  { unfold stats.count_lt. by rewrite Hperm. }
  assert (stats.count_eq a x = stats.count_eq s x) as ->.
  { unfold stats.count_eq. by rewrite Hperm. }
  assert (Forall (λ z, z ∈ x :: a) s) as Hs.
  { apply Forall_forall. intros z Hz. right. by rewrite <- Hperm. }
  rewrite (ascending_ties (x :: a) s x Hl (list_elem_of_here x a) Hs Hasc j y Hj).
  lia.
Qed.

End ranks.

(** ** The claims *)

Section claims.
Context {F : Type} `{Scalar F} {G : Type} `{RandomState G}.
Implicit Types (X Y : ndarray F) (st : Mantel.locals F) (g : G).

Lemma valid_input_checked X :
  valid_input X ↔ Mantel.not_a_distance_matrix X = false.
Proof. symmetry. apply valid_cases. Qed.

Lemma invalid_input_checked X :
  ¬ valid_input X ↔ Mantel.not_a_distance_matrix X = true.
Proof. rewrite valid_input_checked. by destruct (Mantel.not_a_distance_matrix X). Qed.

Lemma double_sum_seq s k : 2 * sum_list (seq s k) = k * (2 * s + k - 1).
Proof.
  induction k as [|k IH]; [done|].
  rewrite seq_S, sum_list_with_app. simpl.
  destruct k as [|k]; [simpl; lia|]. nia.
Qed.

(** C1.  For valid inputs of equal size, the second component [r] of what
    [Test] returns is [sum(X_res * Y_res) / sqrt(X_ss * Y_ss)] for the two
    condensed vectors, ranked first when the method is ['spearman']: the
    loop has left [X_res], [Y_res] and the denominator as they were.  With
    exact addition [r] is Pearson's correlation coefficient of the two
    vectors.  And [Test] does return when the trial count is not
    negative. *)
Theorem Test_r_is_pearson X Y perms method g :
  valid_input X → valid_input Y →
  length (condensed_form X) = length (condensed_form Y) →
  let x := Mantel.to_ranks method (condensed_form X) in
  let y := Mantel.to_ranks method (condensed_form Y) in
  (∀ z r m sd g',
     Mantel.Test X Y perms method g = (inr (z, r, m, sd), g') →
     r = pearson x y ∧ (ExactSum F → r = pearson_coefficient x y))
  ∧ ((0 ≤ perms)%Z →
     ∃ z m sd g',
       Mantel.Test X Y perms method g = (inr (z, pearson x y, m, sd), g')).
Proof.
  intros HX%valid_input_checked HY%valid_input_checked Hlen x y.
  assert ((0 ≤ perms)%Z →
          ∃ z m sd g',
            Mantel.Test X Y perms method g = (inr (z, pearson x y, m, sd), g'))
    as Hreturns.
  { intros Hperms.
    destruct (Test_valid X Y perms method g HX HY Hlen Hperms)
      as (st' & _ & HXr & HYr & Hd & _ & ->).
    unfold statistics. rewrite HXr, HYr, Hd. simpl.
    by eexists _, _, _, _. }
  split; [|done]. intros z r m sd g' HT.
  assert (r = pearson x y) as ->.
  { destruct (Z.ltb_spec perms 0) as [Hneg|Hpos].
    - rewrite Test_condensed, Hlen, Nat.eqb_refl in HT by done. simpl in HT.
      rewrite correlate_negative in HT; [done| |done].
      rewrite length_to_ranks. by apply condensed_form_valid.
    - destruct (Hreturns Hpos) as (? & ? & ? & ? & HT').
      rewrite HT' in HT. by injection HT as _ <- _ _ _. }
  split; [done|]. intros Hexact. apply pearson_pearson_coefficient.
Qed.

(** C2.  For valid inputs of equal size and a positive [perms], the loop
    run from the state that lines 73 to 87 build ends without an exception;
    [MC_corrs] then holds exactly [perms] values, and the [i]-th is
    [sum(X_res * Y_res_permuted) / denominator] for the [i]-th order drawn,
    [Y_res_permuted] being the upper triangle of the matrix form of [Y_res]
    with rows and columns taken in that order.  With exact addition that
    value is the correlation of the deviations of the first vector with the
    deviations of the second, relabelled by the order. *)
Theorem monte_carlo_samples X Y perms method g :
  valid_input X → valid_input Y →
  length (condensed_form X) = length (condensed_form Y) →
  (0 < perms)%Z →
  let x := Mantel.to_ranks method (condensed_form X) in
  let y := Mantel.to_ranks method (condensed_form Y) in
  ∃ st st' res g',
    Mantel.prepare x y perms = inr st
    ∧ Mantel.monte_carlo perms st g = (inr st', g')
    ∧ Mantel.report st' = inr res
    ∧ Mantel.Test X Y perms method g = (inr res, g')
    ∧ length (Mantel.MC_corrs st') = Z.to_nat perms
    ∧ ∀ i, i < Z.to_nat perms →
        ∃ order,
          draws (Mantel.n st) (Z.to_nat perms) g !! i = Some order
          ∧ order ≡ₚ seq 0 (Mantel.n st)
          ∧ Mantel.MC_corrs st' !! i
            = Some (Fdiv (np.sum (zip_with Fmul (Mantel.X_res st)
                            (distance.upper_triangle
                               (permute (matrix_form (Mantel.Y_res st)) order))))
                         (Mantel.denominator st))
          ∧ (ExactSum F →
             Mantel.MC_corrs st' !! i = Some (permuted_correlation x y order)).
Proof.
  intros HX%valid_input_checked HY%valid_input_checked Hlen Hperms x y.
  assert (∃ k, length y = pairs k) as Hy.
  { unfold y. rewrite length_to_ranks. by apply condensed_form_valid. }
  destruct (Test_valid X Y perms method g HX HY Hlen)
    as (st' & Hrun & HXr & HYr & _ & HMC & HT); [lia|].
  fold x y in Hrun, HXr, HYr, HMC, HT.
  eexists (initial x y perms), st', _, _.
  split_and!; [|exact Hrun| |exact HT| |].
  - apply prepare_ok; [done|lia].
  - apply report_ok. rewrite HXr, HYr. simpl.
    rewrite !length_residuals. unfold x, y. by rewrite !length_to_ranks.
  - by rewrite HMC, length_fmap, length_draws.
  - intros i Hi.
    destruct (lookup_lt_is_Some_2
                (draws (Mantel.n (initial x y perms)) (Z.to_nat perms) g) i)
      as [order Horder].
    { by rewrite length_draws. }
    pose proof (draws_lookup _ _ _ _ _ Horder) as Hperm.
    exists order. split_and!; [done|done| |].
    + by rewrite HMC, list_lookup_fmap, Horder.
    + intros Hexact. rewrite HMC, list_lookup_fmap, Horder. simpl. f_equal.
      unfold sample, permuted_correlation, sum_of_products. simpl.
      rewrite !sum_total, !residuals_deviations.
      rewrite upper_triangle_relabelled; [done| |].
      * rewrite Hperm, length_seq. simpl.
        by rewrite length_matrix_form, residuals_deviations.
      * apply Forall_forall. intros j Hj.
        rewrite Hperm in Hj. apply elem_of_seq in Hj. simpl in Hj.
        rewrite length_matrix_form, residuals_deviations in Hj. lia.
Qed.

(** C3.  Of the result [(z, r, m, sd)], [m] is [MC_corrs.mean()] and [sd]
    is [MC_corrs.std()] of the [perms] values the loop leaves in [MC_corrs],
    and [z] is [(r - m) / sd].  With exact addition [m] is the arithmetic
    mean of the values and [sd] their population standard deviation, whose
    divisor is [perms]. *)
Theorem report_statistics X Y perms method g :
  valid_input X → valid_input Y →
  length (condensed_form X) = length (condensed_form Y) →
  (0 ≤ perms)%Z →
  ∃ st st' z r m sd g',
    Mantel.prepare (Mantel.to_ranks method (condensed_form X))
                   (Mantel.to_ranks method (condensed_form Y)) perms = inr st
    ∧ Mantel.monte_carlo perms st g = (inr st', g')
    ∧ Mantel.Test X Y perms method g = (inr (z, r, m, sd), g')
    ∧ length (Mantel.MC_corrs st') = Z.to_nat perms
    ∧ m = np.mean (Mantel.MC_corrs st')
    ∧ sd = np.std (Mantel.MC_corrs st') 0
    ∧ z = Fdiv (Fsub r m) sd
    ∧ (ExactSum F →
       m = arithmetic_mean (Mantel.MC_corrs st')
       ∧ sd = population_sd (Mantel.MC_corrs st')
       ∧ sd = Fsqrt (Fdiv (total ((λ c, Fmul (Fsub c m) (Fsub c m))
                                    <$> Mantel.MC_corrs st'))
                          (Fof_nat (Z.to_nat perms)))).
Proof.
  intros HX%valid_input_checked HY%valid_input_checked Hlen Hperms.
  destruct (Test_valid X Y perms method g HX HY Hlen)
    as (st' & Hrun & _ & _ & _ & HMC & HT); [done|].
  assert (length (Mantel.MC_corrs st') = Z.to_nat perms) as Hsize.
  { by rewrite HMC, length_fmap, length_draws. }
  eexists _, st', _, _, _, _, _.
  split_and!; [|exact Hrun|exact HT|exact Hsize|done|done|done|].
  - apply prepare_ok; [|done].
    rewrite length_to_ranks. by apply condensed_form_valid.
  - intros Hexact. rewrite mean_arithmetic_mean, std_population_sd.
    split_and!; [done|done|].
    unfold population_sd. by rewrite Hsize.
Qed.

(** C4, as the program has it.  [Test] never looks at [method] but to
    compare it with ['spearman']: for every other value, ['pearson'] or not,
    it does what it does for ['pearson'], and raises nothing on account of
    the method. *)
Theorem Test_method_default X Y perms method g :
  method ≠ "spearman"%string →
  Mantel.Test X Y perms method g = Mantel.Test X Y perms "pearson" g.
Proof.
  intros Hm%String.eqb_neq. unfold Mantel.Test, Mantel.to_ranks.
  by rewrite Hm.
Qed.

(** C5.  [Test] raises the [ValueError] of line 47 exactly when [X] is
    neither a symmetric square matrix with a zero diagonal nor a vector with
    one entry for each pair, and the one of line 50 exactly when [X] is one
    of the two and [Y] is neither; the generator is untouched.  An input
    that passes is a condensed vector when it is one-dimensional and a
    distance matrix when it is two-dimensional.  (The two checks of line 46
    are pure: the order in which they run does not show in what [Test]
    does.) *)
Theorem invalid_input_raises X Y perms method g :
  (Mantel.Test X Y perms method g
   = (inl (ValueError "X is not a valid distance matrix"), g)
   ↔ ¬ valid_input X)
  ∧ (Mantel.Test X Y perms method g
     = (inl (ValueError "Y is not a valid distance matrix"), g)
     ↔ valid_input X ∧ ¬ valid_input Y)
  ∧ (valid_input X ↔
     match X with
     | Arr1 _ => is_condensed_vector X
     | Arr2 _ => is_distance_matrix X
     end).
Proof.
  assert (Mantel.not_a_distance_matrix X = false →
          Mantel.not_a_distance_matrix Y = false →
          ∀ msg, msg ≠ "X and Y are not of equal size"%string →
                 msg ≠ "negative dimensions are not allowed"%string →
                 Mantel.Test X Y perms method g ≠ (inl (ValueError msg), g))
    as Hpast.
  { intros HX HY msg Hsize Hneg. rewrite Test_condensed by done.
    destruct (length (condensed_form X) =? length (condensed_form Y)) eqn:Hlen;
      [|simpl; congruence].
    apply Nat.eqb_eq in Hlen. simpl.
    assert (∃ k, length (Mantel.to_ranks method (condensed_form Y)) = pairs k) as Hy.
    { rewrite length_to_ranks. by apply condensed_form_valid. }
    destruct (Z.ltb_spec perms 0) as [Hlt|Hge].
    - rewrite correlate_negative by done. congruence.
    - destruct (correlate_ok (Mantel.to_ranks method (condensed_form X))
                  (Mantel.to_ranks method (condensed_form Y)) perms g)
        as (st' & _ & _ & _ & _ & _ & ->); [|done..].
      by rewrite !length_to_ranks. }
  rewrite !invalid_input_checked, valid_input_checked.
  split_and!.
  - split; [|by apply Test_invalid_X]. intros HT.
    destruct (Mantel.not_a_distance_matrix X) eqn:HX; [done|].
    destruct (Mantel.not_a_distance_matrix Y) eqn:HY.
    { by rewrite Test_invalid_Y in HT. }
    by apply Hpast in HT.
  - split; [|by intros [??]; apply Test_invalid_Y]. intros HT.
    destruct (Mantel.not_a_distance_matrix X) eqn:HX.
    { by rewrite Test_invalid_X in HT. }
    destruct (Mantel.not_a_distance_matrix Y) eqn:HY; [done|].
    by apply Hpast in HT.
  - rewrite <- valid_input_checked. unfold valid_input.
    destruct X; simpl; tauto.
Qed.

(** C6.  Two valid inputs whose condensed vectors differ in length describe
    different numbers of objects, and [Test] raises [ValueError] for them
    at line 63: no random number has been drawn. *)
Theorem size_mismatch_raises X Y perms method g :
  valid_input X → valid_input Y →
  length (condensed_form X) ≠ length (condensed_form Y) →
  objects (condensed_form X) ≠ objects (condensed_form Y)
  ∧ Mantel.Test X Y perms method g
    = (inl (ValueError "X and Y are not of equal size"), g).
Proof.
  intros HX%valid_input_checked HY%valid_input_checked Hlen. split.
  - intros Hobj. apply Hlen.
    rewrite <- (pairs_objects (condensed_form X)), <- (pairs_objects (condensed_form Y))
      by (by apply condensed_form_valid).
    by rewrite Hobj.
  - rewrite Test_condensed by done.
    by apply Nat.eqb_neq in Hlen as ->.
Qed.

(** C7.  With ['spearman'], lines 73 to 104 run on the ranks of the two
    condensed vectors, with ['pearson'] on the vectors themselves.  The rank
    of an element is [.5 * k], where [k / 2] is the average of the ranks its
    ties take: [k] times their number is twice the sum of those ranks.  And
    those are the ranks of the ties: in any ascending arrangement of a
    vector whose elements the comparisons order, the elements equal to [x]
    stand at the places [tied_ranks] lists, counted from 1. *)
Theorem spearman_uses_average_ranks X Y perms g :
  valid_input X → valid_input Y →
  length (condensed_form X) = length (condensed_form Y) →
  Mantel.Test X Y perms "spearman" g
  = Mantel.correlate (stats.rankdata (condensed_form X))
                     (stats.rankdata (condensed_form Y)) perms g
  ∧ Mantel.Test X Y perms "pearson" g
    = Mantel.correlate (condensed_form X) (condensed_form Y) perms g
  ∧ (∀ (a : list F) i x, a !! i = Some x →
       ∃ k, stats.rankdata a !! i = Some (Fmul Fhalf (Fof_nat k))
            ∧ k * length (tied_ranks a x) = 2 * sum_list (tied_ranks a x))
  ∧ (∀ (a s : list F) x, orderly (x :: a) = true → s ≡ₚ a → ascending s →
       ∀ j y, s !! j = Some y → (Feqb y x = true ↔ S j ∈ tied_ranks a x)).
Proof.
  intros HX%valid_input_checked HY%valid_input_checked Hlen.
  split_and!.
  - rewrite Test_condensed by done. by rewrite Hlen, Nat.eqb_refl.
  - rewrite Test_condensed by done. by rewrite Hlen, Nat.eqb_refl.
  - intros a i x Hx. eexists. split.
    + unfold stats.rankdata. by rewrite list_lookup_fmap, Hx.
    + unfold tied_ranks. rewrite length_seq, double_sum_seq. lia.
  - apply sorted_tied_ranks.
Qed.

(** C8.  A condensed vector that [squareform] turns into a matrix comes
    back unchanged when [squareform] condenses that matrix, and when line 94
    writes the matrix to a buffer of the vector's length. *)
Theorem squareform_roundtrip (v : list F) :
  is_condensed_vector (Arr1 v) →
  ∃ rows,
    distance.squareform (Arr1 v) "tomatrix" false = inr (Arr2 rows)
    ∧ distance.squareform (Arr2 rows) "tovector" false = inr (Arr1 v)
    ∧ distance.to_vector_from_squareform_wrap rows (np.zeros (length v)) = v.
Proof.
  intros Hv. simpl in Hv. exists (matrix_form v).
  pose proof (pairs_objects v Hv) as Hp.
  pose proof (upper_triangle_matrix_form v Hv) as Hup.
  split_and!.
  - by apply squareform_tomatrix.
  - unfold distance.squareform. simpl. rewrite length_matrix_form.
    assert (forallb (λ row : list F, length row =? objects v) (matrix_form v) = true)
      as ->.
    { apply Is_true_true, forallb_True.
      eapply Forall_impl; [apply square_matrix_form|].
      intros row Hrow. by apply Is_true_true, Nat.eqb_eq. }
    simpl. destruct (objects v <=? 1) eqn:Hd.
    + apply Nat.leb_le in Hd. f_equal. f_equal. symmetry.
      apply length_zero_iff_nil. rewrite <- Hp.
      by destruct (objects v) as [|[|?]]; [| |lia].
    + rewrite to_vector_from_squareform_wrap_full, Hup; [done|].
      unfold np.zeros. by rewrite length_replicate, length_matrix_form.
  - rewrite to_vector_from_squareform_wrap_full, Hup; [done|].
    unfold np.zeros. by rewrite length_replicate, length_matrix_form.
Qed.

(** C9.  For a symmetric matrix [M] with a zero diagonal and an order that
    is a permutation of [0 .. n-1], line 93 raises no IndexError, and the
    matrix [M[order, :][:, order]] it forms is again symmetric with a zero
    diagonal. *)
Theorem permuted_matrix_is_distance_matrix (M : list (list F)) (order : list nat) :
  is_distance_matrix (Arr2 M) → order ≡ₚ seq 0 (length M) →
  np.take_rows M order ≫= (λ R, np.take_cols R order) = Some (permute M order)
  ∧ is_distance_matrix (Arr2 (permute M order)).
Proof.
  intros (Hsq & Hsym & Hdiag) Hperm.
  assert (Forall (λ i, i < length M) order) as Hlt.
  { apply Forall_forall. intros i Hi. rewrite Hperm in Hi.
    apply elem_of_seq in Hi. lia. }
  assert (length order = length M) as Hlen.
  { by rewrite Hperm, length_seq. }
  split; [by apply (take_rows_cols M order (length M))|].
  assert (length (permute M order) = length M) as Hn.
  { unfold permute. by rewrite length_fmap. }
  simpl. rewrite Hn. split_and!.
  - unfold permute. apply Forall_fmap, Forall_forall. intros i _. simpl.
    by rewrite length_fmap.
  - intros a b Ha Hb.
    destruct (lookup_lt_is_Some_2 order a) as [i Hi]; [lia|].
    destruct (lookup_lt_is_Some_2 order b) as [j Hj]; [lia|].
    rewrite (entry_permute M order a b i j), (entry_permute M order b a j i) by done.
    rewrite Forall_lookup in Hlt. apply Hsym; eauto.
  - intros a Ha.
    destruct (lookup_lt_is_Some_2 order a) as [i Hi]; [lia|].
    rewrite (entry_permute M order a a i i) by done.
    rewrite Forall_lookup in Hlt. apply Hdiag; eauto.
Qed.

(** The matrices of the loop itself: the matrix form of a condensed vector,
    with rows and columns taken in one order, has equal entries at [(a, b)]
    and [(b, a)] and zeros on its diagonal. *)
Lemma trial_matrix_symmetric (v : list F) (order : list nat) :
  Forall (λ i, i < objects v) order →
  ∀ a b,
    np.entry (permute (matrix_form v) order) a b
    = np.entry (permute (matrix_form v) order) b a
    ∧ np.entry (permute (matrix_form v) order) a a = Fzero.
Proof.
  intros Hord.
  assert (∀ i j, i < objects v → j < objects v →
            np.entry (matrix_form v) i j = np.entry (matrix_form v) j i
            ∧ np.entry (matrix_form v) i i = Fzero) as Hsym.
  { unfold matrix_form, objects. destruct (length v =? 0).
    - intros [|i] [|j] ??; try lia. done.
    - set (d := Nat.sqrt_up (length v * 2)). intros i j Hi Hj.
      unfold distance.to_squareform_from_vector_wrap.
      rewrite length_zeros2, !entry_tabulate by done.
      split.
      + repeat case_decide; try lia; try done.
        by replace j with i by lia.
      + repeat case_decide; try lia.
        unfold np.entry, np.zeros2, np.zeros.
        rewrite lookup_replicate_2 by done. simpl.
        by rewrite lookup_replicate_2 by done. }
  assert (∀ a b, np.entry (permute (matrix_form v) order) a b
                 = match order !! a, order !! b with
                   | Some i, Some j => np.entry (matrix_form v) i j
                   | _, _ => Fzero
                   end) as Hentry.
  { intros a b. unfold permute, np.entry at 1.
    rewrite list_lookup_fmap. destruct (order !! a) as [i|]; [|done]. simpl.
    rewrite list_lookup_fmap. by destruct (order !! b). }
  intros a b. rewrite !Hentry. rewrite Forall_lookup in Hord.
  destruct (order !! a) as [i|] eqn:Ha, (order !! b) as [j|] eqn:Hb; try done.
  - destruct (Hsym i j) as [Hij Hii]; eauto.
  - split; [done|]. destruct (Hsym i i) as [_ Hii]; eauto.
Qed.

(** C10.  Two calls of [Test] on the same arguments, made with the
    generator in states from which it draws the same orders (as it does
    from two states set by one seed), return the same result or raise the
    same exception: the result depends on the generator by nothing but the
    [perms] orders of the objects that it draws. *)
Theorem Test_deterministic X Y perms method g1 g2 :
  same_draws (objects (condensed_form Y)) (Z.to_nat perms) g1 g2 →
  (Mantel.Test X Y perms method g1).1 = (Mantel.Test X Y perms method g2).1.
Proof.
  unfold same_draws. intros Hdraws.
  destruct (Mantel.not_a_distance_matrix X) eqn:HX.
  { by rewrite !Test_invalid_X. }
  destruct (Mantel.not_a_distance_matrix Y) eqn:HY.
  { by rewrite !Test_invalid_Y. }
  rewrite !Test_condensed by done.
  destruct (length (condensed_form X) =? length (condensed_form Y)) eqn:Hlen;
    [|done].
  apply Nat.eqb_eq in Hlen. simpl.
  set (x := Mantel.to_ranks method (condensed_form X)).
  set (y := Mantel.to_ranks method (condensed_form Y)).
  assert (length x = length y) as Hxy.
  { unfold x, y. by rewrite !length_to_ranks. }
  assert (∃ k, length y = pairs k) as Hy.
  { unfold y. rewrite length_to_ranks. by apply condensed_form_valid. }
  destruct (Z.ltb_spec perms 0) as [Hneg|Hpos].
  { by rewrite !correlate_negative. }
  assert (Mantel.n (initial x y perms) = objects (condensed_form Y)) as Hn.
  { simpl. rewrite length_matrix_form. apply objects_length.
    unfold y. by rewrite length_residuals, length_to_ranks. }
  destruct (correlate_ok x y perms g1 Hxy Hy Hpos)
    as (st1 & _ & HX1 & HY1 & Hd1 & HMC1 & ->).
  destruct (correlate_ok x y perms g2 Hxy Hy Hpos)
    as (st2 & _ & HX2 & HY2 & Hd2 & HMC2 & ->).
  rewrite Hn in HMC1, HMC2.
  simpl. unfold statistics.
  by rewrite HX1, HY1, Hd1, HMC1, HX2, HY2, Hd2, HMC2, Hdraws.
Qed.

End claims.

(** ** The program run on examples

    The scalars are IEEE doubles and the generator is [rotor]; [X3] is the
    matrix of the three distances [1, 2, 3]. *)

Example Test_X3_Y3 :
  Mantel.Test X3 Y3 2 "pearson" (0 : nat) = (inr (1, 1, 0.25, 0.75)%float, 2).
Proof. vm_compute. reflexivity. Qed.

(** From another state of the generator the two orders drawn give the same
    sample twice: [sd] is zero and [z] is not finite. *)
Example Test_X3_Y3_later :
  Mantel.Test X3 Y3 2 "pearson" (1 : nat)
  = (inr (infinity, 1, -0.5, 0)%float, 3).
Proof. vm_compute. reflexivity. Qed.

Example rankdata_Y6 :
  stats.rankdata [1; 5; 2; 3; 5; 3]%float = [1; 5.5; 2; 3.5; 5.5; 3.5]%float.
Proof. vm_compute. reflexivity. Qed.

Example orderly_Y6 : orderly [1; 5; 2; 3; 5; 3]%float = true.
Proof. vm_compute. reflexivity. Qed.

Example tied_ranks_Y6 : tied_ranks [1; 5; 2; 3; 5; 3]%float 5%float = [5; 6].
Proof. vm_compute. reflexivity. Qed.

Example not_orderly_nan : orderly [1; nan]%float = false.
Proof. vm_compute. reflexivity. Qed.

(** Addition of real numbers is exact. *)
Lemma reals_exact : ExactSum R.
Proof.
  split; simpl; intros.
  - apply eq_sym, Rplus_assoc.
  - apply Rplus_comm.
  - apply Rplus_0_l.
Qed.

(** Over the reals, the coefficient of [1, 2, 3] and [1, 3, 2] is one
    half. *)
Example pearson_coefficient_XR_YR :
  pearson_coefficient (condensed_form XR) (condensed_form YR) = (/ 2)%R.
Proof.
  unfold pearson_coefficient, correlation, sum_of_products, deviations,
    arithmetic_mean, total.
  simpl.
  match goal with
  | |- (?a / sqrt ?b)%R = _ =>
      replace b with (2 * 2)%R by field; replace a with 1%R by field
  end.
  rewrite sqrt_square by lra. lra.
Qed.

Example pearson_X3_Y3 :
  pearson (condensed_form X3) (condensed_form Y3) = 1%float.
Proof. vm_compute. reflexivity. Qed.

(** In doubles the order of the additions shows: added the way numpy adds,
    the eight numbers come to [3.6]; added from left to right, they do
    not. *)
#[warnings="-inexact-float"] Example sum_pairwise :
  np.sum [0.1; 0.2; 0.3; 0.4; 0.5; 0.6; 0.7; 0.8]%float = 3.6%float
  ∧ foldl Fadd Fzero [0.1; 0.2; 0.3; 0.4; 0.5; 0.6; 0.7; 0.8]%float
    = 3.5999999999999996%float.
Proof. split; vm_compute; reflexivity. Qed.

Lemma Test_r_is_pearson_witness :
  ∃ z m sd g',
    Mantel.Test XR YR 2 "pearson" (0 : nat)
    = (inr (z, pearson_coefficient (condensed_form XR) (condensed_form YR), m, sd),
       g').
Proof.
  destruct (Test_r_is_pearson XR YR 2 "pearson" (0 : nat)) as [Hr Hreturns];
    [right; exists 3; reflexivity
    |right; exists 3; reflexivity
    |reflexivity
    |].
  destruct Hreturns as (z & m & sd & g' & HT); [lia|].
  exists z, m, sd, g'.
  destruct (Hr _ _ _ _ _ HT) as [_ Hexact].
  rewrite HT, (Hexact reals_exact). reflexivity.
Defined.

Lemma monte_carlo_samples_witness :
  ∃ st st' res g',
    Mantel.prepare (Mantel.to_ranks "pearson" (condensed_form XR))
                   (Mantel.to_ranks "pearson" (condensed_form YR)) 2 = inr st
    ∧ Mantel.monte_carlo 2 st (0 : nat) = (inr st', g')
    ∧ Mantel.report st' = inr res
    ∧ Mantel.Test XR YR 2 "pearson" (0 : nat) = (inr res, g')
    ∧ length (Mantel.MC_corrs st') = Z.to_nat 2
    ∧ ∀ i, i < Z.to_nat 2 →
        ∃ order,
          draws (Mantel.n st) (Z.to_nat 2) (0 : nat) !! i = Some order
          ∧ order ≡ₚ seq 0 (Mantel.n st)
          ∧ Mantel.MC_corrs st' !! i
            = Some (Fdiv (np.sum (zip_with Fmul (Mantel.X_res st)
                            (distance.upper_triangle
                               (permute (matrix_form (Mantel.Y_res st)) order))))
                         (Mantel.denominator st))
          ∧ (ExactSum R →
             Mantel.MC_corrs st' !! i
             = Some (permuted_correlation
                       (Mantel.to_ranks "pearson" (condensed_form XR))
                       (Mantel.to_ranks "pearson" (condensed_form YR)) order)).
Proof.
  apply (monte_carlo_samples XR YR 2 "pearson" (0 : nat));
    [right; exists 3; reflexivity
    |right; exists 3; reflexivity
    |reflexivity
    |lia].
Defined.

Lemma report_statistics_witness :
  ∃ st st' z r m sd g',
    Mantel.prepare (Mantel.to_ranks "spearman" (condensed_form XR))
                   (Mantel.to_ranks "spearman" (condensed_form YR)) 3 = inr st
    ∧ Mantel.monte_carlo 3 st (1 : nat) = (inr st', g')
    ∧ Mantel.Test XR YR 3 "spearman" (1 : nat) = (inr (z, r, m, sd), g')
    ∧ length (Mantel.MC_corrs st') = Z.to_nat 3
    ∧ m = np.mean (Mantel.MC_corrs st')
    ∧ sd = np.std (Mantel.MC_corrs st') 0
    ∧ z = Fdiv (Fsub r m) sd
    ∧ (ExactSum R →
       m = arithmetic_mean (Mantel.MC_corrs st')
       ∧ sd = population_sd (Mantel.MC_corrs st')
       ∧ sd = Fsqrt (Fdiv (total ((λ c, Fmul (Fsub c m) (Fsub c m))
                                    <$> Mantel.MC_corrs st'))
                          (Fof_nat (Z.to_nat 3)))).
Proof.
  apply (report_statistics XR YR 3 "spearman" (1 : nat));
    [right; exists 3; reflexivity
    |right; exists 3; reflexivity
    |reflexivity
    |lia].
Defined.

(** C4, as the specification has it, fails: with ['kendall'] the program
    returns what it returns with ['pearson']. *)
Lemma Test_kendall_returns :
  Mantel.Test X3 Y3 2 "kendall" (0 : nat) = (inr (1, 1, 0.25, 0.75)%float, 2).
Proof. vm_compute. reflexivity. Qed.

Lemma Test_method_default_witness :
  Mantel.Test X3 Y3 2 "kendall" (0 : nat) = Mantel.Test X3 Y3 2 "pearson" (0 : nat).
Proof. apply (Test_method_default X3 Y3 2 "kendall" 0). discriminate. Defined.

Lemma invalid_input_raises_witness :
  Mantel.Test (Arr2 [[0; 1]; [2; 0]]%float) Y3 2 "pearson" (0 : nat)
  = (inl (ValueError "X is not a valid distance matrix"), 0)
  ∧ Mantel.Test X3 (Arr1 [1; 2]%float) 2 "pearson" (0 : nat)
    = (inl (ValueError "Y is not a valid distance matrix"), 0).
Proof.
  split.
  - apply (proj1 (invalid_input_raises (Arr2 [[0; 1]; [2; 0]]%float) Y3 2 "pearson" 0)).
    apply invalid_input_checked. reflexivity.
  - apply (proj1 (proj2 (invalid_input_raises X3 (Arr1 [1; 2]%float) 2 "pearson" 0))).
    split.
    + apply valid_input_checked. reflexivity.
    + apply invalid_input_checked. reflexivity.
Defined.

Lemma size_mismatch_raises_witness :
  objects (condensed_form X6) ≠ objects (condensed_form Y3)
  ∧ Mantel.Test X6 Y3 2 "pearson" (0 : nat)
    = (inl (ValueError "X and Y are not of equal size"), 0).
Proof.
  apply (size_mismatch_raises X6 Y3 2 "pearson" 0);
    [apply valid_input_checked; reflexivity
    |apply valid_input_checked; reflexivity
    |simpl; lia].
Defined.

Lemma spearman_uses_average_ranks_witness :
  Mantel.Test X6 Y6 3 "spearman" (1 : nat)
  = Mantel.correlate (stats.rankdata (condensed_form X6))
                     (stats.rankdata (condensed_form Y6)) 3 (1 : nat)
  ∧ Mantel.Test X6 Y6 3 "pearson" (1 : nat)
    = Mantel.correlate (condensed_form X6) (condensed_form Y6) 3 (1 : nat)
  ∧ (∀ (a : list float) i x, a !! i = Some x →
       ∃ k, stats.rankdata a !! i = Some (Fmul Fhalf (Fof_nat k))
            ∧ k * length (tied_ranks a x) = 2 * sum_list (tied_ranks a x))
  ∧ (∀ (a s : list float) x, orderly (x :: a) = true → s ≡ₚ a → ascending s →
       ∀ j y, s !! j = Some y → (Feqb y x = true ↔ S j ∈ tied_ranks a x)).
Proof.
  apply (spearman_uses_average_ranks X6 Y6 3 1);
    [apply valid_input_checked; reflexivity
    |apply valid_input_checked; reflexivity
    |reflexivity].
Defined.

Lemma squareform_roundtrip_witness :
  ∃ rows,
    distance.squareform (Arr1 [1; 2; 3]%float) "tomatrix" false = inr (Arr2 rows)
    ∧ distance.squareform (Arr2 rows) "tovector" false = inr (Arr1 [1; 2; 3]%float)
    ∧ distance.to_vector_from_squareform_wrap rows (np.zeros 3) = [1; 2; 3]%float.
Proof.
  apply (squareform_roundtrip [1; 2; 3]%float).
  apply is_valid_y_spec. reflexivity.
Defined.

Lemma permuted_matrix_is_distance_matrix_witness :
  np.take_rows [[0; 1; 2]; [1; 0; 3]; [2; 3; 0]]%float [2; 0; 1]
    ≫= (λ R, np.take_cols R [2; 0; 1])
  = Some (permute [[0; 1; 2]; [1; 0; 3]; [2; 3; 0]]%float [2; 0; 1])
  ∧ is_distance_matrix (Arr2 (permute [[0; 1; 2]; [1; 0; 3]; [2; 3; 0]]%float [2; 0; 1])).
Proof.
  apply (permuted_matrix_is_distance_matrix
           [[0; 1; 2]; [1; 0; 3]; [2; 3; 0]]%float [2; 0; 1]).
  - apply is_valid_dm_spec. reflexivity.
  - apply (bool_decide_unpack _). vm_compute. exact I.
Defined.

(** From the states 0 and 3 the generator [rotor] draws the same two orders
    of three objects; the two calls return the same result and leave the
    generator in two states. *)
Lemma Test_deterministic_witness :
  (Mantel.Test X3 Y3 2 "pearson" (0 : nat)).1
  = (Mantel.Test X3 Y3 2 "pearson" (3 : nat)).1.
Proof. apply (Test_deterministic X3 Y3 2 "pearson" 0 3). reflexivity. Defined.

Example Test_X3_Y3_from_3 :
  Mantel.Test X3 Y3 2 "pearson" (3 : nat) = (inr (1, 1, 0.25, 0.75)%float, 5).
Proof. vm_compute. reflexivity. Qed.

(** Two calls that follow [random.seed(7)] start from one state. *)
Example Test_seeded :
  seeded 7 (Mantel.Test X3 Y3 2 "pearson") (0 : nat)
  = (inr (infinity, 1, -0.5, 0)%float, 9)
  ∧ seeded 7 (Mantel.Test X3 Y3 2 "pearson") (5 : nat)
    = (inr (infinity, 1, -0.5, 0)%float, 9).
Proof. split; vm_compute; reflexivity. Qed.

(** ** Further properties of [Test] *)

Section further.
Context {F : Type} `{Scalar F} {G : Type} `{RandomState G}.
Implicit Types (X Y : ndarray F) (st : Mantel.locals F) (g : G).

(** All that a call of [Test] can come to. *)
Lemma Test_outcome X Y perms method g :
  let x := Mantel.to_ranks method (condensed_form X) in
  let y := Mantel.to_ranks method (condensed_form Y) in
  (¬ valid_input X
   ∧ Mantel.Test X Y perms method g
     = (inl (ValueError "X is not a valid distance matrix"), g))
  ∨ (valid_input X ∧ ¬ valid_input Y
     ∧ Mantel.Test X Y perms method g
       = (inl (ValueError "Y is not a valid distance matrix"), g))
  ∨ (valid_input X ∧ valid_input Y
     ∧ length (condensed_form X) ≠ length (condensed_form Y)
     ∧ Mantel.Test X Y perms method g
       = (inl (ValueError "X and Y are not of equal size"), g))
  ∨ (valid_input X ∧ valid_input Y
     ∧ length (condensed_form X) = length (condensed_form Y)
     ∧ (perms < 0)%Z
     ∧ Mantel.Test X Y perms method g
       = (inl (ValueError "negative dimensions are not allowed"), g))
  ∨ (valid_input X ∧ valid_input Y
     ∧ length (condensed_form X) = length (condensed_form Y)
     ∧ (0 ≤ perms)%Z
     ∧ ∃ st',
         Mantel.monte_carlo perms (initial x y perms) g
         = (inr st', after_draws (Mantel.n (initial x y perms)) (Z.to_nat perms) g)
         ∧ Mantel.X_res st' = residuals x
         ∧ Mantel.Y_res st' = residuals y
         ∧ Mantel.denominator st' = Mantel.denominator (initial x y perms)
         ∧ Mantel.MC_corrs st'
           = sample (initial x y perms)
               <$> draws (Mantel.n (initial x y perms)) (Z.to_nat perms) g
         ∧ Mantel.Test X Y perms method g
           = (inr (statistics st'),
              after_draws (Mantel.n (initial x y perms)) (Z.to_nat perms) g)).
Proof.
  intros x y.
  destruct (Mantel.not_a_distance_matrix X) eqn:HX.
  { left. split; [by apply invalid_input_checked|by apply Test_invalid_X]. }
  destruct (Mantel.not_a_distance_matrix Y) eqn:HY.
  { right; left. split_and!; [by apply valid_input_checked
                             |by apply invalid_input_checked
                             |by apply Test_invalid_Y]. }
  pose proof (proj2 (valid_input_checked X) HX) as HvX.
  pose proof (proj2 (valid_input_checked Y) HY) as HvY.
  destruct (decide (length (condensed_form X) = length (condensed_form Y)))
    as [Hlen|Hlen].
  - destruct (Z.ltb_spec perms 0) as [Hneg|Hpos].
    + do 3 right; left. split_and!; try done.
      rewrite Test_condensed, Hlen, Nat.eqb_refl by done. simpl.
      apply correlate_negative; [|done].
      rewrite length_to_ranks. by apply condensed_form_valid.
    + do 4 right. split_and!; try done.
      destruct (Test_valid X Y perms method g HX HY Hlen Hpos)
        as (st' & Hrun & HXr & HYr & Hd & HMC & HT).
      by exists st'.
  - do 2 right; left. split_and!; try done.
    rewrite Test_condensed by done.
    by apply Nat.eqb_neq in Hlen as ->.
Qed.

Lemma objects_initial (x y : list F) perms :
  Mantel.n (initial x y perms) = objects y.
Proof.
  simpl. rewrite length_matrix_form.
  apply objects_length, length_residuals.
Qed.

(** X1.  [Test] returns a result only when both inputs are valid, their
    condensed vectors have one length and [perms] is not negative. *)
Theorem Test_returns_only_if X Y perms method g res g' :
  Mantel.Test X Y perms method g = (inr res, g') →
  valid_input X ∧ valid_input Y
  ∧ length (condensed_form X) = length (condensed_form Y)
  ∧ (0 ≤ perms)%Z.
Proof.
  destruct (Test_outcome X Y perms method g)
    as [(? & HT)|[(? & ? & HT)|[(? & ? & ? & HT)|[(? & ? & ? & ? & HT)
       |(? & ? & ? & ? & _)]]]]; try (rewrite HT; discriminate).
  done.
Qed.

(** X2.  When [Test] raises, it has drawn no random number: it fails before
    the loop or not at all.  And the exception is never an [IndexError]:
    the indices of the loop are in range. *)
Theorem Test_raises_before_drawing X Y perms method g e g' :
  Mantel.Test X Y perms method g = (inl e, g') →
  g' = g ∧ ∀ msg, e ≠ IndexError msg.
Proof.
  destruct (Test_outcome X Y perms method g)
    as [(? & HT)|[(? & ? & HT)|[(? & ? & ? & HT)|[(? & ? & ? & ? & HT)
       |(? & ? & ? & ? & st' & _ & _ & _ & _ & _ & HT)]]]];
    rewrite HT; intros [= <- <-]; split; done.
Qed.

(** X3.  A call of [Test] that returns has advanced the generator by exactly
    [perms] calls of [permutation(n)], where [n] is the number of objects
    the condensed vectors describe. *)
Theorem Test_draws_perms_orders X Y perms method g res g' :
  Mantel.Test X Y perms method g = (inr res, g') →
  g' = after_draws (objects (condensed_form Y)) (Z.to_nat perms) g
  ∧ pairs (objects (condensed_form Y)) = length (condensed_form Y)
  ∧ length (draws (objects (condensed_form Y)) (Z.to_nat perms) g) = Z.to_nat perms.
Proof.
  destruct (Test_outcome X Y perms method g)
    as [(? & HT)|[(? & ? & HT)|[(? & ? & ? & HT)|[(? & ? & ? & ? & HT)
       |(HX & HY & Hlen & ? & st' & _ & _ & _ & _ & _ & HT)]]]];
    rewrite HT; intros [= <- <-].
  rewrite length_matrix_form.
  rewrite (objects_length _ (condensed_form Y))
    by (by rewrite length_residuals, length_to_ranks).
  split_and!; [done| |apply length_draws].
  apply pairs_objects, condensed_form_valid. by apply valid_input_checked.
Qed.

(** X4.  The two forms of an input are interchangeable: on a valid matrix
    [Test] does what it does on the condensed vector of that matrix. *)
Theorem Test_on_condensed_form X Y perms method g :
  valid_input X → valid_input Y →
  Mantel.Test X Y perms method g
  = Mantel.Test (Arr1 (condensed_form X)) (Arr1 (condensed_form Y)) perms method g.
Proof.
  intros HX HY.
  assert (∀ Z : ndarray F, valid_input Z →
            Mantel.not_a_distance_matrix (Arr1 (condensed_form Z)) = false) as Hcf.
  { intros Z HZ. apply valid_input_checked. right. simpl.
    by apply condensed_form_valid, valid_input_checked. }
  rewrite (Test_condensed X Y) by (by apply valid_input_checked).
  by rewrite (Test_condensed (Arr1 _) (Arr1 _)) by (by apply Hcf).
Qed.

Lemma count_lt_zip (l : list (F * F)) x x' :
  Forall (λ q, Fltb q.1 x = Fltb q.2 x') l →
  stats.count_lt (l.*1) x = stats.count_lt (l.*2) x'.
Proof.
  induction 1 as [|q l Hq _ IH]; [done|].
  rewrite !fmap_cons, !count_lt_cons, Hq, IH. done.
Qed.

Lemma count_eq_zip (l : list (F * F)) x x' :
  Forall (λ q, Feqb q.1 x = Feqb q.2 x') l →
  stats.count_eq (l.*1) x = stats.count_eq (l.*2) x'.
Proof.
  induction 1 as [|q l Hq _ IH]; [done|].
  rewrite !fmap_cons, !count_eq_cons, Hq, IH. done.
Qed.

Lemma same_order_length (v w : list F) :
  same_order v w = true → length v = length w.
Proof. unfold same_order. intros [Hl _]%andb_true_iff. by apply Nat.eqb_eq. Qed.

Lemma rankdata_zip (l : list (F * F)) :
  Forall (λ p, Forall (λ q, Fltb q.1 p.1 = Fltb q.2 p.2
                            ∧ Feqb q.1 p.1 = Feqb q.2 p.2) l) l →
  stats.rankdata (l.*1) = stats.rankdata (l.*2).
Proof.
  intros Hall. unfold stats.rankdata.
  rewrite <- !list_fmap_compose.
  apply list_fmap_ext. intros _ p Hp%list_elem_of_lookup_2. simpl.
  rewrite Forall_forall in Hall. specialize (Hall p Hp).
  rewrite (count_lt_zip l p.1 p.2), (count_eq_zip l p.1 p.2); [done| |].
  - eapply Forall_impl; [exact Hall|]. by intros q [_ Hq].
  - eapply Forall_impl; [exact Hall|]. by intros q [Hq _].
Qed.

Lemma same_order_rankdata (v w : list F) :
  same_order v w = true → stats.rankdata v = stats.rankdata w.
Proof.
  intros Hvw. pose proof (same_order_length v w Hvw) as Hlen.
  unfold same_order in Hvw. apply andb_true_iff in Hvw as [_ Hall].
  pose proof (rankdata_zip (zip v w)) as Hz.
  rewrite fst_zip, snd_zip in Hz by lia. apply Hz.
  apply Is_true_true, forallb_True in Hall.
  eapply Forall_impl; [exact Hall|]. intros p Hp. simpl in Hp.
  apply forallb_True in Hp.
  eapply Forall_impl; [exact Hp|]. intros q Hq. simpl in Hq.
  apply Is_true_true, andb_true_iff in Hq as [Hq1 Hq2].
  by apply Bool.eqb_prop in Hq1, Hq2.
Qed.

(** X5.  With ['spearman'], [Test] depends on its vectors by nothing but
    the way their entries compare: vectors of one length whose entries are
    ordered and tied alike give the same result. *)
Theorem spearman_depends_on_order (v w v' w' : list F) perms g :
  same_order v w = true → same_order v' w' = true →
  Mantel.Test (Arr1 v) (Arr1 v') perms "spearman" g
  = Mantel.Test (Arr1 w) (Arr1 w') perms "spearman" g.
Proof.
  intros Hvw Hvw'.
  pose proof (same_order_length _ _ Hvw) as Hl.
  pose proof (same_order_length _ _ Hvw') as Hl'.
  unfold Mantel.Test, Mantel.not_a_distance_matrix, Py.bind, Py.lift. simpl.
  rewrite Hl, Hl'.
  unfold Mantel.to_ranks. simpl.
  by rewrite (same_order_rankdata v w), (same_order_rankdata v' w').
Qed.

Lemma permute_id (M : list (list F)) k :
  length M = k → Forall (λ row, length row = k) M → permute M (seq 0 k) = M.
Proof.
  intros HM Hsq. unfold permute. apply list_eq. intros i.
  rewrite list_lookup_fmap.
  destruct (decide (i < k)) as [Hi|Hi].
  - rewrite lookup_seq_lt by done. simpl.
    destruct (lookup_lt_is_Some_2 M i) as [row Hrow]; [lia|].
    rewrite Hrow. f_equal. apply list_eq. intros j.
    rewrite list_lookup_fmap. unfold np.entry. rewrite Hrow. simpl.
    rewrite Forall_lookup in Hsq. specialize (Hsq i row Hrow).
    destruct (decide (j < k)) as [Hj|Hj].
    + rewrite lookup_seq_lt by done. simpl.
      destruct (lookup_lt_is_Some_2 row j) as [a ->]; [lia|done].
    + rewrite lookup_seq_ge, lookup_ge_None_2 by lia. done.
  - rewrite lookup_seq_ge, lookup_ge_None_2 by lia. done.
Qed.

(** X6.  A trial that draws the identity order finds the veridical
    correlation again: its entry of [MC_corrs] is the [r] that [Test]
    returns. *)
Theorem identity_order_gives_r X Y perms method g i :
  valid_input X → valid_input Y →
  length (condensed_form X) = length (condensed_form Y) →
  (0 ≤ perms)%Z →
  let x := Mantel.to_ranks method (condensed_form X) in
  let y := Mantel.to_ranks method (condensed_form Y) in
  draws (objects (condensed_form Y)) (Z.to_nat perms) g !! i
  = Some (seq 0 (objects (condensed_form Y))) →
  ∃ st' z m sd g',
    Mantel.monte_carlo perms (initial x y perms) g = (inr st', g')
    ∧ Mantel.Test X Y perms method g = (inr (z, pearson x y, m, sd), g')
    ∧ Mantel.MC_corrs st' !! i = Some (pearson x y).
Proof.
  intros HX HY Hlen Hperms x y Hi.
  destruct (Test_valid X Y perms method g) as (st' & Hrun & HXr & HYr & Hd & HMC & HT);
    [by apply valid_input_checked..|done|done|].
  fold x y in Hrun, HXr, HYr, Hd, HMC, HT.
  assert (∃ k, length (residuals y) = pairs k) as Hy.
  { unfold y. rewrite length_residuals, length_to_ranks.
    by apply condensed_form_valid, valid_input_checked. }
  assert (Mantel.n (initial x y perms) = objects (condensed_form Y)) as Hn.
  { rewrite objects_initial. apply objects_length, length_to_ranks. }
  eexists st', _, _, _, _. split_and!; [exact Hrun| |].
  - rewrite HT. unfold statistics. rewrite HXr, HYr, Hd. done.
  - rewrite HMC, Hn, list_lookup_fmap, Hi. simpl. f_equal.
    unfold sample. simpl.
    rewrite <- Hn. simpl.
    rewrite permute_id; [|done|].
    + by rewrite upper_triangle_matrix_form.
    + rewrite length_matrix_form. apply square_matrix_form.
Qed.

Lemma loop_ready_with_buffer st (buf : list F) :
  loop_ready st → length buf = length (Mantel.Y_res_permuted st) →
  loop_ready (with_buffer st buf).
Proof. intros (HM & Hsq & Hbuf) Hlen. split_and!; simpl; [done..|congruence]. Qed.

Lemma trial_with_buffer i st (buf : list F) g :
  loop_ready st → length buf = length (Mantel.Y_res_permuted st) →
  Mantel.trial i (with_buffer st buf) g = Mantel.trial i st g.
Proof.
  intros Hready Hbuf.
  rewrite (trial_unfold i st) by done.
  by rewrite trial_unfold by (by apply loop_ready_with_buffer).
Qed.

(** X7.  Each trial overwrites the whole of [Y_res_permuted]: what the
    array held before the loop shows nowhere once a trial has run. *)
Theorem monte_carlo_overwrites_buffer st (buf : list F) perms g :
  loop_ready st →
  length buf = length (Mantel.Y_res_permuted st) →
  Z.to_nat perms ≤ length (Mantel.MC_corrs st) →
  (0 < perms)%Z →
  Mantel.monte_carlo perms (with_buffer st buf) g = Mantel.monte_carlo perms st g.
Proof.
  intros Hready Hbuf Hlen Hperms. unfold Mantel.monte_carlo.
  destruct (Z.to_nat perms) as [|k] eqn:Hk; [lia|].
  simpl. unfold Py.bind.
  by rewrite trial_with_buffer.
Qed.

(** X8.  With [perms = 0] [Test] still returns, and draws no random number:
    [r] is the veridical correlation, and [m] and [sd] are what the mean and
    the standard deviation of an empty array are, [0 / 0] and
    [sqrt(0 / 0)]. *)
Theorem Test_without_trials X Y method g :
  valid_input X → valid_input Y →
  length (condensed_form X) = length (condensed_form Y) →
  let r := pearson (Mantel.to_ranks method (condensed_form X))
                   (Mantel.to_ranks method (condensed_form Y)) in
  let m := Fdiv Fzero (Fof_nat 0) in
  let sd := Fsqrt (Fdiv Fzero (Fof_nat 0)) in
  Mantel.Test X Y 0 method g = (inr (Fdiv (Fsub r m) sd, r, m, sd), g).
Proof.
  intros HX HY Hlen r m sd.
  destruct (Test_valid X Y 0 method g) as (st' & _ & HXr & HYr & Hd & HMC & HT);
    [by apply valid_input_checked..|done|done|].
  rewrite HT. simpl. unfold statistics.
  by rewrite HXr, HYr, Hd, HMC.
Qed.

(** X9.  Inputs that describe a single object are not refused: their
    condensed vectors are empty, the loop runs on the 1 by 1 zero matrix,
    and [r] and every entry of [MC_corrs] are [0 / sqrt(0 * 0)]. *)
Theorem Test_single_object X Y perms method g :
  valid_input X → valid_input Y →
  length (condensed_form X) = 0 → length (condensed_form Y) = 0 →
  (0 ≤ perms)%Z →
  let c := Fdiv Fzero (Fsqrt (Fmul Fzero Fzero)) in
  let samples := replicate (Z.to_nat perms) c in
  let m := np.mean samples in
  let sd := np.std samples 0 in
  Mantel.Test X Y perms method g
  = (inr (Fdiv (Fsub c m) sd, c, m, sd), after_draws 1 (Z.to_nat perms) g).
Proof.
  intros HX HY HlX HlY Hperms c samples m sd.
  destruct (Test_valid X Y perms method g) as (st' & _ & HXr & HYr & Hd & HMC & HT);
    [by apply valid_input_checked..|congruence|done|].
  apply nil_length_inv in HlX, HlY. rewrite HlX, HlY in *.
  assert (Mantel.to_ranks method [] = @nil F) as Hr.
  { unfold Mantel.to_ranks. by destruct (String.eqb _ _). }
  rewrite Hr in *.
  change (Mantel.n (initial [] [] perms)) with 1 in HMC, HT.
  assert (Mantel.MC_corrs st' = samples) as HMC'.
  { rewrite HMC. unfold samples.
    rewrite <- (length_draws 1 (Z.to_nat perms) g) at 2.
    generalize (draws 1 (Z.to_nat perms) g). intros l.
    induction l as [|o l IH]; [done|]. rewrite fmap_cons, IH. done. }
  rewrite HT. unfold statistics. by rewrite HXr, HYr, Hd, HMC'.
Qed.

Lemma trial_frame i st g st1 g1 :
  loop_ready st → Mantel.trial i st g = (inr st1, g1) →
  g1 = (permutation (Mantel.n st) g).2
  ∧ loop_ready st1
  ∧ Mantel.X_res st1 = Mantel.X_res st
  ∧ Mantel.Y_res st1 = Mantel.Y_res st
  ∧ Mantel.denominator st1 = Mantel.denominator st
  ∧ Mantel.Y_res_as_matrix st1 = Mantel.Y_res_as_matrix st
  ∧ Mantel.n st1 = Mantel.n st
  ∧ length (Mantel.Y_res_permuted st1) = length (Mantel.Y_res_permuted st)
  ∧ length (Mantel.MC_corrs st1) = length (Mantel.MC_corrs st).
Proof.
  intros Hready. pose proof Hready as (HM & Hsq & Hbuf).
  rewrite trial_unfold by done. cbn zeta. unfold Py.bind, Py.lift.
  assert (length (distance.upper_triangle
                    (permute (Mantel.Y_res_as_matrix st)
                       (permutation (Mantel.n st) g).1))
          = pairs (Mantel.n st)) as Hnew.
  { rewrite length_upper_triangle. unfold permute.
    by rewrite length_fmap, permutation_length. }
  destruct (np.mul _ _) as [e|products]; [done|].
  unfold np.setitem. case_decide; [|done].
  intros [= <- <-]. simpl.
  split_and!; try done; [congruence|by rewrite length_insert].
Qed.

Lemma for_trials_frame k : ∀ a st g st' g',
  loop_ready st →
  Py.for_ (seq a k) Mantel.trial st g = (inr st', g') →
  g' = after_draws (Mantel.n st) k g
  ∧ Mantel.X_res st' = Mantel.X_res st
  ∧ Mantel.Y_res st' = Mantel.Y_res st
  ∧ Mantel.denominator st' = Mantel.denominator st
  ∧ Mantel.Y_res_as_matrix st' = Mantel.Y_res_as_matrix st
  ∧ Mantel.n st' = Mantel.n st
  ∧ length (Mantel.Y_res_permuted st') = length (Mantel.Y_res_permuted st)
  ∧ length (Mantel.MC_corrs st') = length (Mantel.MC_corrs st).
Proof.
  induction k as [|k IH]; intros a st g st' g' Hready Hrun.
  - simpl in Hrun. by injection Hrun as <- <-.
  - simpl in Hrun. unfold Py.bind in Hrun.
    destruct (Mantel.trial a st g) as [[e|st1] g1] eqn:Htrial; [done|].
    apply trial_frame in Htrial as (-> & Hready1 & HX & HY & Hd & HM & Hn & Hb & HMC);
      [|done].
    apply IH in Hrun as (-> & -> & -> & -> & -> & -> & -> & ->); [|done].
    simpl. by rewrite Hn.
Qed.

(** X10.  The loop changes [Y_res_permuted] and [MC_corrs] and nothing else,
    and it keeps the length of both; when it ends without an exception it
    has drawn [perms] orders.  It does end so from a state of the right
    shapes: [X_res] holds one entry for each pair, as [Y_res_permuted]
    does, and [MC_corrs] has room for [perms] values. *)
Theorem monte_carlo_frame st perms g :
  loop_ready st →
  (∀ st' g',
     Mantel.monte_carlo perms st g = (inr st', g') →
     g' = after_draws (Mantel.n st) (Z.to_nat perms) g
     ∧ Mantel.X_res st' = Mantel.X_res st
     ∧ Mantel.Y_res st' = Mantel.Y_res st
     ∧ Mantel.denominator st' = Mantel.denominator st
     ∧ Mantel.Y_res_as_matrix st' = Mantel.Y_res_as_matrix st
     ∧ Mantel.n st' = Mantel.n st
     ∧ length (Mantel.Y_res_permuted st') = length (Mantel.Y_res_permuted st)
     ∧ length (Mantel.MC_corrs st') = length (Mantel.MC_corrs st))
  ∧ (length (Mantel.X_res st) = pairs (Mantel.n st) →
     Z.to_nat perms ≤ length (Mantel.MC_corrs st) →
     ∃ st', Mantel.monte_carlo perms st g
            = (inr st', after_draws (Mantel.n st) (Z.to_nat perms) g)).
Proof.
  intros Hready. unfold Mantel.monte_carlo. split.
  - intros st' g'. by apply for_trials_frame.
  - intros HX Hlen.
    destruct (for_trials (Z.to_nat perms) 0 st g) as (st' & Hrun & _);
      [done|done|lia|].
    by exists st'.
Qed.

End further.

(** ** The further properties on examples *)

Lemma Test_returns_only_if_witness :
  valid_input X3 ∧ valid_input Y3
  ∧ length (condensed_form X3) = length (condensed_form Y3)
  ∧ (0 ≤ 2)%Z.
Proof.
  apply (Test_returns_only_if X3 Y3 2 "pearson" (0 : nat)
           (1, 1, 0.25, 0.75)%float 2).
  vm_compute. reflexivity.
Defined.

Lemma Test_raises_before_drawing_witness :
  (0 : nat) = 0
  ∧ ∀ msg, ValueError "X is not a valid distance matrix" ≠ IndexError msg.
Proof.
  apply (Test_raises_before_drawing
           (Arr2 [[0; 1]; [2; 0]]%float) Y3 2 "pearson" (0 : nat)).
  vm_compute. reflexivity.
Defined.

Lemma Test_draws_perms_orders_witness :
  (2 : nat) = after_draws (objects (condensed_form Y3)) (Z.to_nat 2) (0 : nat)
  ∧ pairs (objects (condensed_form Y3)) = length (condensed_form Y3)
  ∧ length (draws (objects (condensed_form Y3)) (Z.to_nat 2) (0 : nat)) = Z.to_nat 2.
Proof.
  apply (Test_draws_perms_orders X3 Y3 2 "pearson" (0 : nat)
           (1, 1, 0.25, 0.75)%float).
  vm_compute. reflexivity.
Defined.

Lemma Test_on_condensed_form_witness :
  Mantel.Test X3 Y3 2 "pearson" (0 : nat)
  = Mantel.Test (Arr1 (condensed_form X3)) (Arr1 (condensed_form Y3)) 2 "pearson"
      (0 : nat).
Proof.
  apply (Test_on_condensed_form X3 Y3 2 "pearson" 0);
    apply valid_input_checked; reflexivity.
Defined.

Lemma spearman_depends_on_order_witness :
  Mantel.Test (Arr1 [3; 1; 2; 6; 4; 5]%float) (Arr1 [1; 5; 2; 3; 5; 3]%float)
    3 "spearman" (1 : nat)
  = Mantel.Test (Arr1 [9; 1; 4; 36; 16; 25]%float)
      (Arr1 [10; 50; 20; 30; 50; 30]%float) 3 "spearman" (1 : nat).
Proof.
  apply (spearman_depends_on_order
           [3; 1; 2; 6; 4; 5]%float [9; 1; 4; 36; 16; 25]%float
           [1; 5; 2; 3; 5; 3]%float [10; 50; 20; 30; 50; 30]%float 3 1);
    vm_compute; reflexivity.
Defined.

Lemma identity_order_gives_r_witness :
  ∃ st' z m sd g',
    Mantel.monte_carlo 2
      (initial (Mantel.to_ranks "pearson" (condensed_form X3))
               (Mantel.to_ranks "pearson" (condensed_form Y3)) 2) (0 : nat)
    = (inr st', g')
    ∧ Mantel.Test X3 Y3 2 "pearson" (0 : nat)
      = (inr (z, pearson (Mantel.to_ranks "pearson" (condensed_form X3))
                         (Mantel.to_ranks "pearson" (condensed_form Y3)), m, sd), g')
    ∧ Mantel.MC_corrs st' !! 0
      = Some (pearson (Mantel.to_ranks "pearson" (condensed_form X3))
                      (Mantel.to_ranks "pearson" (condensed_form Y3))).
Proof.
  apply (identity_order_gives_r X3 Y3 2 "pearson" (0 : nat) 0);
    [apply valid_input_checked; reflexivity
    |apply valid_input_checked; reflexivity
    |reflexivity
    |lia
    |reflexivity].
Defined.

Lemma monte_carlo_overwrites_buffer_witness :
  Mantel.monte_carlo 2
    (with_buffer (initial [1; 2; 3]%float [1; 2; 3]%float 2) [7; 7; 7]%float)
    (0 : nat)
  = Mantel.monte_carlo 2 (initial [1; 2; 3]%float [1; 2; 3]%float 2) (0 : nat).
Proof.
  apply (monte_carlo_overwrites_buffer
           (initial [1; 2; 3]%float [1; 2; 3]%float 2) [7; 7; 7]%float 2 (0 : nat));
    [apply loop_ready_initial; exists 3; reflexivity
    |reflexivity
    |simpl; lia
    |lia].
Defined.

Lemma Test_without_trials_witness :
  Mantel.Test X3 Y3 0 "pearson" (0 : nat)
  = (inr (Fdiv (Fsub (pearson (Mantel.to_ranks "pearson" (condensed_form X3))
                              (Mantel.to_ranks "pearson" (condensed_form Y3)))
                     (Fdiv Fzero (Fof_nat 0)))
               (Fsqrt (Fdiv Fzero (Fof_nat 0))),
          pearson (Mantel.to_ranks "pearson" (condensed_form X3))
                  (Mantel.to_ranks "pearson" (condensed_form Y3)),
          Fdiv Fzero (Fof_nat 0),
          Fsqrt (Fdiv Fzero (Fof_nat 0))), 0).
Proof.
  apply (Test_without_trials X3 Y3 "pearson" (0 : nat));
    [apply valid_input_checked; reflexivity
    |apply valid_input_checked; reflexivity
    |reflexivity].
Defined.

Lemma Test_single_object_witness :
  Mantel.Test (Arr2 [[0]]%float) (Arr1 []) 2 "pearson" (0 : nat)
  = (inr (Fdiv (Fsub (Fdiv Fzero (Fsqrt (Fmul Fzero Fzero)))
                     (np.mean (replicate (Z.to_nat 2)
                                 (Fdiv Fzero (Fsqrt (Fmul Fzero Fzero))))))
               (np.std (replicate (Z.to_nat 2)
                          (Fdiv Fzero (Fsqrt (Fmul Fzero Fzero)))) 0),
          Fdiv Fzero (Fsqrt (Fmul Fzero Fzero)),
          np.mean (replicate (Z.to_nat 2) (Fdiv Fzero (Fsqrt (Fmul Fzero Fzero)))),
          np.std (replicate (Z.to_nat 2) (Fdiv Fzero (Fsqrt (Fmul Fzero Fzero)))) 0),
     after_draws 1 (Z.to_nat 2) (0 : nat)).
Proof.
  apply (Test_single_object (Arr2 [[0]]%float) (Arr1 []) 2 "pearson" (0 : nat));
    [apply valid_input_checked; reflexivity
    |apply valid_input_checked; reflexivity
    |reflexivity
    |reflexivity
    |lia].
Defined.

Lemma monte_carlo_frame_witness :
  ∃ st',
    Mantel.monte_carlo 2 (initial [1; 2; 3]%float [1; 2; 3]%float 2) (0 : nat)
    = (inr st', after_draws 3 (Z.to_nat 2) (0 : nat))
    ∧ Mantel.X_res st' = residuals [1; 2; 3]%float
    ∧ Mantel.Y_res st' = residuals [1; 2; 3]%float
    ∧ Mantel.denominator st'
      = Mantel.denominator (initial [1; 2; 3]%float [1; 2; 3]%float 2)
    ∧ Mantel.Y_res_as_matrix st' = matrix_form (residuals [1; 2; 3]%float)
    ∧ Mantel.n st' = 3
    ∧ length (Mantel.Y_res_permuted st') = 3
    ∧ length (Mantel.MC_corrs st') = 2.
Proof.
  destruct (monte_carlo_frame (initial [1; 2; 3]%float [1; 2; 3]%float 2) 2 (0 : nat))
    as [Hframe Hruns]; [apply loop_ready_initial; exists 3; reflexivity|].
  destruct Hruns as [st' Hrun]; [reflexivity|simpl; lia|].
  exists st'. split; [exact Hrun|].
  destruct (Hframe st' _ Hrun) as (_ & HX & HY & Hd & HM & Hn & Hb & HMC).
  split_and!; assumption.
Defined.
